(** * Feature-selection QUBO harness: a shallow embedding

    The development follows the two Python modules of the repository:

    - [qso/problem/feature_selection.py]: [objective_matrix],
      [qubo_hamiltonian], [feature_selection_ansatz] and the class
      [FeatureSelectionProblem];
    - [qso/plot/runs.py]: the class [ExperimentRun].

    Arrays are lists (a matrix is the list of its rows).  Array elements
    live in an arbitrary carrier with the arithmetic operations the code
    applies to them; no algebraic law is assumed unless a statement asks for
    the laws of floating-point values through [FloatLike].  Exceptions are
    values of [result].  Calls
    into numpy/jax, pennylane and the Python standard library are
    operations of small interfaces (type classes). *)

From Stdlib Require Import Strings.String Strings.Ascii.
From Stdlib Require Import ZArith QArith Qcanon Qcabs Bool Arith Lia List
  Sorted.
Import ListNotations.

#[local] Open Scope nat_scope.
#[local] Open Scope list_scope.

Set Implicit Arguments.

(* ================================================================== *)
(** ** Exceptions *)

Inductive error : Type :=
| ShapeError          (* raised by check_ndarray / reshape *)
| DecodeError         (* ValueError / SyntaxError of ast.literal_eval *)
| InvalidAxis (axis_type : string)  (* ValueError of get_x_axis *)
| AttributeError (attr : string)
| TypeError
| ValueError
| IndexError
| OverflowError
| LibraryError.       (* an exception raised inside a collaborator *)

Inductive result (A : Type) : Type :=
| Ok (a : A)
| Raise (e : error).

Arguments Ok {A} a.
Arguments Raise {A} e.

Definition bind {A B} (r : result A) (k : A -> result B) : result B :=
  match r with
  | Ok a => k a
  | Raise e => Raise e
  end.

Notation "x <- c ;; k" := (bind c (fun x => k))
  (at level 61, c at next level, right associativity).
Notation "c ;;; k" := (bind c (fun _ => k))
  (at level 61, right associativity).

Definition raises {A} (r : result A) : Prop :=
  exists e, r = Raise e.

Definition is_ok {A} (r : result A) : bool :=
  match r with Ok _ => true | Raise _ => false end.

Fixpoint mapM {A B} (f : A -> result B) (xs : list A) : result (list B) :=
  match xs with
  | [] => Ok []
  | x :: xs' => y <- f x ;; ys <- mapM f xs' ;; Ok (y :: ys)
  end.

(* ================================================================== *)
(** ** Array elements *)

(** The operations the source applies to array elements.  [two] and [four]
    are the literals [2.] and [4.]; [one] is [1.]; [zero] is the neutral
    start of [sum] and the off-diagonal filler of [diagflat]. *)
Class Scalar (F : Type) : Type := {
  zero : F;
  one : F;
  two : F;
  four : F;
  add : F -> F -> F;
  sub : F -> F -> F;
  mul : F -> F -> F;
  div : F -> F -> F;
  neg : F -> F;
  fabs : F -> F
}.

(** What the statements about [alpha = 0] and [alpha = 1] use of
    floating-point arithmetic.  Values are told apart as [==] tells them
    apart (the two zeros are one value); [nan] stands for the values that
    are not numbers, and [finite] holds of the values that are neither
    [nan] nor infinite.  A product with zero is zero for finite values
    only; every operation with [nan] gives [nan]. *)
Class NonNumbers (F : Type) : Type := {
  nan : F;
  finite : F -> Prop
}.

Class FloatLike (F : Type) `{Scalar F} `{NonNumbers F} : Prop := {
  nan_not_finite : ~ finite nan;
  finite_zero : finite zero;
  sub_zero_r : forall x, sub x zero = x;
  sub_zero_l : forall x, sub zero x = neg x;
  sub_diag_one : sub one one = zero;
  mul_one_l : forall x, mul one x = x;
  mul_one_r : forall x, mul x one = x;
  mul_zero_l : forall x, finite x -> mul zero x = zero;
  mul_zero_r : forall x, finite x -> mul x zero = zero;
  fabs_finite : forall x, finite x -> finite (fabs x);
  fabs_nan : fabs nan = nan;
  neg_nan : neg nan = nan;
  mul_nan_l : forall x, mul nan x = nan;
  mul_nan_r : forall x, mul x nan = nan;
  sub_nan_l : forall x, sub nan x = nan;
  sub_nan_r : forall x, sub x nan = nan
}.

Definition vector (F : Type) := list F.
Definition matrix (F : Type) := list (list F).

(** [a.shape] *)
Class HasShape (A : Type) : Type := shape : A -> list nat.

#[export] Instance vector_shape {F} : HasShape (vector F) :=
  fun v => [length v].

#[export] Instance matrix_shape {F} : HasShape (matrix F) :=
  fun M => [length M; match M with [] => 0 | r :: _ => length r end].

Definition nrows {F} (M : matrix F) : nat := length M.
Definition ncols {F} (M : matrix F) : nat :=
  match M with [] => 0 | r :: _ => length r end.

(** A list of rows is an array when all rows have the same length. *)
Definition rectangular {F} (c : nat) (M : matrix F) : Prop :=
  Forall (fun r => length r = c) M.

Definition is_square {F} (n : nat) (M : matrix F) : Prop :=
  length M = n /\ rectangular n M.

Section ArrayOps.
Context {F : Type} `{Scalar F}.

(** [M[i, j]] for indices inside the array *)
Definition entry (M : matrix F) (i j : nat) : F :=
  nth j (nth i M []) zero.

(** [v[i]] *)
Definition item (v : vector F) (i : nat) : F := nth i v zero.

(** [xs.sum()]: the elements added up from the left *)
Definition fsum (xs : list F) : F := fold_left add xs zero.

(** column [c] of [M] *)
Definition column (M : matrix F) (c : nat) : vector F :=
  map (fun r => nth c r zero) M.

(** [M.sum(axis=0)]: one sum per column, taken down the rows *)
Definition sum_axis0 (M : matrix F) : vector F :=
  map (fun c => fsum (column M c)) (seq 0 (ncols M)).

(** the sum along row [r], used to compare with the column sums *)
Definition row_sum (M : matrix F) (r : nat) : F := fsum (nth r M []).

(** [M * s] and [M / s] with a scalar, [np.abs(M)] *)
Definition mscale (M : matrix F) (s : F) : matrix F :=
  map (map (fun x => mul x s)) M.
Definition mdiv (M : matrix F) (s : F) : matrix F :=
  map (map (fun x => div x s)) M.
Definition mabs (M : matrix F) : matrix F := map (map fabs) M.
Definition vabs (v : vector F) : vector F := map fabs v.

(** [s * M] with the scalar on the left *)
Definition smul (s : F) (M : matrix F) : matrix F :=
  map (map (fun x => mul s x)) M.

(** the size that two sizes of one dimension broadcast to *)
Definition broadcast_dim (a b : nat) : option nat :=
  if Nat.eqb a b then Some a
  else if Nat.eqb a 1 then Some b
  else if Nat.eqb b 1 then Some a
  else None.

(** the index read in a dimension of size [size] for the index [i] of the
    broadcast result *)
Definition broadcast_index (size i : nat) : nat :=
  if Nat.eqb size 1 then 0 else i.

(** [A - B] elementwise, with the broadcasting of two-dimensional arrays;
    shapes that do not broadcast raise *)
Definition msub (A B : matrix F) : result (matrix F) :=
  match broadcast_dim (nrows A) (nrows B),
        broadcast_dim (ncols A) (ncols B) with
  | Some r, Some c =>
      Ok (map (fun i =>
                 map (fun j =>
                        sub (entry A (broadcast_index (nrows A) i)
                                     (broadcast_index (ncols A) j))
                            (entry B (broadcast_index (nrows B) i)
                                     (broadcast_index (ncols B) j)))
                     (seq 0 c))
              (seq 0 r))
  | _, _ => Raise ValueError
  end.

(** [np.diagflat(v)] *)
Definition diagflat (v : vector F) : matrix F :=
  map (fun i => map (fun j => if Nat.eqb i j then item v i else zero)
                    (seq 0 (length v)))
      (seq 0 (length v)).

(** [M[:-1, :-1]] *)
Definition drop_last_row_col (M : matrix F) : matrix F :=
  map (@removelast F) (removelast M).

(** [M[-1, :-1]]: an array without rows has no last row *)
Definition last_row_but_last (M : matrix F) : result (vector F) :=
  match M with
  | [] => Raise IndexError
  | _ :: _ => Ok (removelast (last M []))
  end.
End ArrayOps.

(* ================================================================== *)
(** ** qso.utils.validation *)

Module Validation.

(** Modelled from the spec: [check_ndarray(name, array, shape)] of
    [qso/utils/validation.py], "a shape-validator that fails with a
    descriptive error on mismatch" (section 6); a shape-validation error
    is "raised synchronously when an array's dimensionality or shape does
    not match an expected contract" (section 7). *)
Definition check_ndarray {A} `{HasShape A}
    (name : string) (array : A) (expected : list nat) : result unit :=
  if list_eq_dec Nat.eq_dec (shape array) expected
  then Ok tt
  else Raise ShapeError.

End Validation.


(* ================================================================== *)
(** ** Collaborators outside the repository *)

(** [np.corrcoef] reduces to the correlation coefficient of two variables;
    the coefficient itself is the library's. *)
Class Correlation (F : Type) : Type :=
  pearson : vector F -> vector F -> F.

(** pennylane observables: [qml.PauliZ(w)], [qml.PauliX(w)] and [a @ b] *)
Inductive observable : Type :=
| PauliZ (wire : nat)
| PauliX (wire : nat)
| Tensor (a b : observable).

(** [qml.Hamiltonian(coeffs, ops)] *)
Record Hamiltonian (F : Type) : Type := mkHamiltonian {
  coeffs : list F;
  ops : list observable
}.

(** [Hamiltonian.simplify()] *)
Class Pennylane (F : Type) : Type :=
  simplify : Hamiltonian F -> Hamiltonian F.

(** operations queued by a circuit procedure *)
Inductive operation (F : Type) : Type :=
| Gate (o : observable)
| Hadamard (wire : nat)
| ApproxTimeEvolution (hamiltonian : Hamiltonian F) (time : F) (n : nat)
| CommutingEvolution (hamiltonian : Hamiltonian F) (time : F).

Arguments Gate {F} o.
Arguments Hadamard {F} wire.

(** [jax.random]: [split] of a key in two, and the draw of [samples]
    indices below [bound] that a bootstrap performs with a key. *)
Class Random (Key : Type) : Type := {
  split : Key -> Key * Key;
  choice : Key -> forall (bound samples : nat), list nat
}.

(** [hamiltonian_ansatz(params, single, double, n_var)] of
    [qso/utils/ansatz.py] is not part of the sources at hand; it is kept
    abstract, and may raise. *)
Class AnsatzLib (F : Type) : Type :=
  hamiltonian_ansatz :
    vector F -> string -> string -> nat -> result (Hamiltonian F).

(* ================================================================== *)
(** ** qso.utils *)

Module Utils.
Section Resample.
Context {F : Type} `{Scalar F} {Key : Type} `{Random Key}.

(** Modelled from the spec: [resample_data(X, y, samples, key)] of
    [qso/utils], "a resampler (X, y, samples, key) -> (X', y')"
    (section 6) that "bootstraps (resamples with replacement, count = N)
    the paired feature/response data" (section 4.5): one draw of row
    indices, applied to both arrays. *)
Definition resample_data (X : matrix F) (y : vector F)
    (samples : nat) (key : Key) : matrix F * vector F :=
  let idx := choice key (length X) samples in
  (map (fun i => nth i X []) idx, map (fun i => item y i) idx).

End Resample.
End Utils.

(* ================================================================== *)
(** ** qso/problem/feature_selection.py *)

Module FeatureSelection.
Import Validation Utils.

Section ObjectiveMatrix.
Context {F : Type} `{Scalar F} `{Correlation F}.

(** [np.corrcoef(x, y, rowvar=False)] of [jax.numpy], for [x] of shape
    [(N, k)] and [y] of shape [(m,)].  The shapes of the two arguments
    are first promoted against each other, which raises unless [k = m],
    [k = 1] or [m = 1]; [y] is then one variable of [m] observations.
    The columns of [x] are the other variables (its only row, when
    [N = 1]); they are put above [y], which raises unless they have [m]
    observations too.  The result is the table of the coefficients of
    all pairs of variables.  For [N >= 2] and [m = N] it is there exactly
    when [k = 1] or [k = N]. *)
Definition corrcoef (x : matrix F) (y : vector F) : result (matrix F) :=
  let k := ncols x in
  let m := length y in
  if negb (Nat.eqb k m || Nat.eqb k 1 || Nat.eqb m 1) then Raise ValueError
  else
    let rows := if Nat.eqb (nrows x) 1 then x
                else map (column x) (seq 0 k) in
    let observations := if Nat.eqb (nrows x) 1 then k else nrows x in
    if Nat.eqb (length rows) 0 then Ok []
    else if negb (Nat.eqb observations m) then Raise LibraryError
    else
      let variables := rows ++ [y] in
      Ok (map (fun a => map (fun b => pearson a b) variables) variables).

Definition objective_matrix (feature_data : matrix F)
    (response_data : vector F) (alpha : F) : result (matrix F) :=
  pre_objective <- corrcoef feature_data response_data ;;
  let objective_body :=
    mscale (mabs (drop_last_row_col pre_objective)) (sub one alpha) in
  importance <- last_row_but_last pre_objective ;;
  objective_body <-
    msub objective_body (smul alpha (diagflat (vabs importance))) ;;
  Ok objective_body.

End ObjectiveMatrix.

Section Qubo.
Context {F : Type} `{Scalar F} `{Pennylane F}.

(** The variables the two loops of [qubo_hamiltonian] read and write.
    [var_n] is the Python variable [n]: it first holds [objective.shape[0]]
    and is then rebound by the inner [for n in range(n)]. *)
Record qubo_vars : Type := mkVars {
  var_n : nat;
  var_coeffs : list F;
  var_terms : list observable
}.

(** body of the inner loop, entered with the loop target [n] already
    bound to the current element of the range *)
Definition qubo_inner_body (j : matrix F) (h : vector F) (m : nat)
    (vars : qubo_vars) (n : nat) : qubo_vars :=
  if negb (Nat.eqb m n) then
    mkVars n (var_coeffs vars ++ [entry j m n])
             (var_terms vars ++ [Tensor (PauliZ m) (PauliZ n)])
  else
    mkVars n (var_coeffs vars ++ [item h m])
             (var_terms vars ++ [PauliZ m]).

(** body of the outer loop: [for n in range(n): ...].  The range is built
    from the value [n] has when the inner [for] statement is reached. *)
Definition qubo_outer_body (j : matrix F) (h : vector F)
    (vars : qubo_vars) (m : nat) : qubo_vars :=
  fold_left (qubo_inner_body j h m) (seq 0 (var_n vars)) vars.

(** [for m in range(n): ...], with [coeffs = []] and [terms = []] *)
Definition qubo_loops (j : matrix F) (h : vector F) (n : nat) : qubo_vars :=
  fold_left (qubo_outer_body j h) (seq 0 n) (mkVars n [] []).

Definition qubo_hamiltonian (objective : matrix F)
    : result (Hamiltonian F) :=
  let j := mdiv objective four in
  let h := map (fun s => div (neg s) two) (sum_axis0 objective) in
  let n := nrows objective in
  check_ndarray "objective" objective [n; n] ;;;
  let vars := qubo_loops j h n in
  Ok (simplify (mkHamiltonian (var_coeffs vars) (var_terms vars))).

(** [qml.Hamiltonian(coeffs, terms)] as the loops leave it, before
    [simplify] is applied *)
Definition qubo_unsimplified (objective : matrix F) : Hamiltonian F :=
  let j := mdiv objective four in
  let h := map (fun s => div (neg s) two) (sum_axis0 objective) in
  let vars := qubo_loops j h (nrows objective) in
  mkHamiltonian (var_coeffs vars) (var_terms vars).

(** the weighted terms of a Hamiltonian, coefficient by coefficient *)
Definition weighted_terms (hm : Hamiltonian F) : list (F * observable) :=
  combine (coeffs hm) (ops hm).

Definition is_linear (o : observable) : bool :=
  match o with PauliZ _ => true | _ => false end.

End Qubo.

Section Ansatz.
Context {F : Type} `{Scalar F} `{AnsatzLib F}.

(** [x_mixer(wires)] of pennylane: one [PauliX] per wire, coefficient 1 *)
Definition x_mixer (wires : list nat) : Hamiltonian F :=
  mkHamiltonian (map (fun _ => one) wires) (map PauliX wires).

(** [v.reshape(r, c)] of a flat array *)
Fixpoint rows_of (c r : nat) (v : vector F) : matrix F :=
  match r with
  | 0 => []
  | S r' => firstn c v :: rows_of c r' (skipn c v)
  end.

Definition reshape (v : vector F) (r c : nat) : result (matrix F) :=
  if Nat.eqb (length v) (r * c) then Ok (rows_of c r v)
  else Raise ShapeError.

(** [qml.layer(template, depth, times, params=params)]: the positional
    argument must have [depth] rows, and row [i] goes to the [i]-th
    application of the template; the keyword argument goes to all. *)
Definition layer
    (template : vector F -> vector F -> result (list (operation F)))
    (depth : nat) (times : matrix F) (params : vector F)
    : result (list (operation F)) :=
  if Nat.eqb (length times) depth then
    queued <- mapM (fun i => template (nth i times []) params)
                   (seq 0 depth) ;;
    Ok (concat queued)
  else Raise LibraryError.

Section Closure.
Variables (n_var n_layers trotter_steps : nat).

Definition x_hamiltonian : Hamiltonian F := x_mixer (seq 0 n_var).

Definition qaoa_layer (times params : vector F)
    : result (list (operation F)) :=
  problem <- hamiltonian_ansatz params "z" "z" n_var ;;
  Ok [ApproxTimeEvolution problem (item times 0) trotter_steps;
      CommutingEvolution x_hamiltonian (item times 1)].

Definition state_circuit (params : vector F)
    : result (list (operation F)) :=
  let prepared :=
    flat_map (fun wire => [Gate (PauliX wire); Hadamard wire])
             (seq 0 n_var) in
  times <- reshape (firstn (2 * n_layers) params) n_layers 2 ;;
  let params := skipn (2 * n_layers) params in
  evolved <- layer qaoa_layer n_layers times params ;;
  Ok (prepared ++ evolved).

(** The counts are natural numbers; the reported parameter count is the
    Python integer [2 * n_layers + 2 * n_var - 1]. *)
Definition feature_selection_ansatz
    : Z * (vector F -> result (list (operation F))) :=
  ((2 * Z.of_nat n_layers + 2 * Z.of_nat n_var - 1)%Z, state_circuit).

End Closure.
End Ansatz.

Section Problem.
Context {F : Type} `{Scalar F} `{Correlation F} `{Pennylane F}.
Context {Key : Type} `{Random Key}.

(** The attributes of a [FeatureSelectionProblem] instance.

    Modelled from the spec: the base class [QSOProblem] of
    [qso/problem/__init__.py], whose constructor receives [key]; the
    problem "holds [...] a pseudo-random generator state ([key])"
    (section 3), read and replaced as [self.key]. *)
Record FeatureSelectionProblem : Type := mkProblem {
  key : Key;
  feature_data : matrix F;
  response_data : vector F;
  alpha : F;
  n : nat;
  k : nat
}.

(** [FeatureSelectionProblem.__init__]; a [matrix] has two dimensions, so
    the assertion on [np.ndim] holds. *)
Definition init (features : matrix F) (response : vector F)
    (weight : F) (initial_key : Key) : result FeatureSelectionProblem :=
  let rows := nrows features in
  let cols := ncols features in
  check_ndarray "response_data" response [rows] ;;;
  Ok (mkProblem initial_key features response weight rows cols).

(** [self.key = new_key] *)
Definition set_key (self : FeatureSelectionProblem) (new_key : Key)
    : FeatureSelectionProblem :=
  mkProblem new_key (feature_data self) (response_data self)
            (alpha self) (n self) (k self).

(** [sample_hamiltonian]: the instance after the call, and what the call
    returns or raises *)
Definition sample_hamiltonian (self : FeatureSelectionProblem)
    : FeatureSelectionProblem * result (Hamiltonian F) :=
  let (kept, used) := split (key self) in
  let self := set_key self kept in
  let (features, response) :=
    resample_data (feature_data self) (response_data self) (n self) used in
  (self,
   objective <- objective_matrix features response (alpha self) ;;
   qubo_hamiltonian objective).

(** [calls] successive calls on one instance: the Hamiltonians in the
    order of the calls, and the instance left behind *)
Fixpoint sample_many (calls : nat) (self : FeatureSelectionProblem)
    : FeatureSelectionProblem * list (result (Hamiltonian F)) :=
  match calls with
  | 0 => (self, [])
  | S calls' =>
      let (self', first) := sample_hamiltonian self in
      let (self'', rest) := sample_many calls' self' in
      (self'', first :: rest)
  end.

End Problem.
End FeatureSelection.

(* ================================================================== *)
(** ** qso/plot/runs.py *)

(** Python values as [orjson.loads] and [ast.literal_eval] build them.  A
    float is kept as the rational its literal denotes. *)
#[local] Unset Elimination Schemes.
Inductive value : Type :=
| VNone
| VBool (b : bool)
| VInt (z : Z)
| VFloat (q : Q)
| VStr (s : string)
| VList (items : list value)
| VTuple (items : list value)
| VDict (fields : list (string * value)).
#[local] Set Elimination Schemes.

(** [ast.literal_eval] *)
Class Ast : Type :=
  literal_eval : string -> result value.

(** Integer arrays of jax have a fixed width: 32 bits, or 64 with
    [jax_enable_x64]. *)
Class JaxConfig : Type :=
  int_bits : Z.

(** [np.array] of a list of values read from a run log; the array it
    builds is the library's. *)
Class Numpy (A : Type) : Type :=
  np_array_values : list value -> result A.

Module Runs.

(** [types.SimpleNamespace]: attribute names with their values *)
Definition namespace : Type := list (string * value).

Fixpoint getattr (obj : namespace) (name : string) : result value :=
  match obj with
  | [] => Raise (AttributeError name)
  | (a, v) :: rest => if String.eqb a name then Ok v else getattr rest name
  end.

Fixpoint setattr (obj : namespace) (name : string) (v : value) : namespace :=
  match obj with
  | [] => [(name, v)]
  | (a, w) :: rest =>
      if String.eqb a name then (a, v) :: rest
      else (a, w) :: setattr rest name v
  end.

(** [SimpleNamespace] built from the keys of the dictionary [i] *)
Definition SimpleNamespace (i : value) : result namespace :=
  match i with
  | VDict fields => Ok (fold_left (fun ns kv => setattr ns (fst kv) (snd kv))
                                  fields [])
  | _ => Raise TypeError
  end.

(** the elements that [for i in var] goes through: the items of a list
    or tuple, the keys of a dictionary, the characters of a string *)
Definition iterate (var : value) : result (list value) :=
  match var with
  | VList items | VTuple items => Ok items
  | VDict fields => Ok (map (fun kv => VStr (fst kv)) fields)
  | VStr text =>
      Ok (map (fun c => VStr (String c EmptyString))
              (list_ascii_of_string text))
  | _ => Raise TypeError
  end.

(** An [ExperimentRun] instance.  [iterations] holds the namespaces that
    the key ['iterations'] of a log has set, if any; [attributes] is the
    rest of the instance dictionary. *)
Record ExperimentRun : Type := mkRun {
  iterations : option (list namespace);
  attributes : namespace
}.

(** [setattr(self, key, var)] for a key other than ['iterations'].  Three
    names are not entries of the instance dictionary: [__class__] takes
    classes only and [__weakref__] cannot be written, so both raise on
    the values of a log, and [__dict__] replaces the whole dictionary,
    which has to be one. *)
Definition setattr_self (self : ExperimentRun) (key : string) (var : value)
    : result ExperimentRun :=
  if String.eqb key "__class__" then Raise TypeError
  else if String.eqb key "__weakref__" then
    Raise (AttributeError "__weakref__")
  else if String.eqb key "__dict__" then
    match var with
    | VDict fields =>
        Ok (mkRun None
              (fold_left (fun ns kv => setattr ns (fst kv) (snd kv))
                         fields []))
    | _ => Raise TypeError
    end
  else Ok (mkRun (iterations self) (setattr (attributes self) key var)).

(** [self.iterations].  When the attribute was not set by the key
    ['iterations'], it is what a replaced dictionary holds under that
    name: a value of the log, whose elements are values of the log too
    and have none of the attributes that the class reads. *)
Definition get_iterations (self : ExperimentRun) : result (list namespace) :=
  match iterations self with
  | Some spaces => Ok spaces
  | None =>
      match getattr (attributes self) "iterations" with
      | Ok raw =>
          elements <- iterate raw ;;
          Ok (map (fun _ => []) elements)
      | Raise _ => Raise (AttributeError "iterations")
      end
  end.

(** [self.name(...)]: an entry of the instance dictionary named like a
    method hides the method, and a value of a log cannot be called *)
Definition call_method {A} (self : ExperimentRun) (name : string)
    (body : result A) : result A :=
  match getattr (attributes self) name with
  | Ok _ => Raise TypeError
  | Raise _ => body
  end.

(** one round of the first loop of [__init__] *)
Definition init_setattr (self : result ExperimentRun)
    (item : string * value) : result ExperimentRun :=
  self <- self ;;
  let (key, var) := item in
  if String.eqb key "iterations" then
    elements <- iterate var ;;
    spaces <- mapM SimpleNamespace elements ;;
    Ok (mkRun (Some spaces) (attributes self))
  else setattr_self self key var.

Section Init.
Context `{Ast}.

(** one round of the second loop of [__init__] *)
Definition decode_params (iteration : namespace) : result namespace :=
  params <- getattr iteration "params" ;;
  match params with
  | VStr text =>
      decoded <- literal_eval text ;;
      Ok (setattr iteration "params" decoded)
  | _ => Ok iteration
  end.

(** [ExperimentRun.__init__], from the dictionary that [loads] returns *)
Definition init (data : list (string * value)) : result ExperimentRun :=
  self <- fold_left init_setattr data (Ok (mkRun None [])) ;;
  spaces <- get_iterations self ;;
  decoded <- mapM decode_params spaces ;;
  Ok (mkRun (Some decoded) (attributes self)).

End Init.

Section Axes.
Context `{JaxConfig}.

Definition int_min : Z := (- 2 ^ (int_bits - 1))%Z.
Definition int_max : Z := (2 ^ (int_bits - 1) - 1)%Z.

(** two's-complement wrap-around of the array type *)
Definition wrap (z : Z) : Z :=
  ((z - int_min) mod 2 ^ int_bits + int_min)%Z.

(** [a * b] for the integers of a run log *)
Definition py_mul (a b : value) : result Z :=
  match a, b with
  | VInt x, VInt y => Ok (x * y)%Z
  | _, _ => Raise TypeError
  end.

(** [np.array] of a list of Python integers: an integer outside the
    range of the array type is refused *)
Definition np_array (xs : list Z) : result (list Z) :=
  if forallb (fun x => Z.leb int_min x && Z.leb x int_max) xs
  then Ok xs
  else Raise OverflowError.

Fixpoint cumsum_from (acc : Z) (xs : list Z) : list Z :=
  match xs with
  | [] => []
  | x :: rest => let acc' := wrap (acc + x) in acc' :: cumsum_from acc' rest
  end.

(** [np.cumsum] of an integer array *)
Definition cumsum (xs : list Z) : list Z := cumsum_from 0%Z xs.

(** [np.arange(n)] *)
Definition arange (n : nat) : list Z := map Z.of_nat (seq 0 n).

Definition shots_of (i : namespace) : result Z :=
  samples <- getattr i "samples" ;;
  shots <- getattr i "shots_per_hamiltonians" ;;
  py_mul samples shots.

Definition get_x_axis (self : ExperimentRun) (axis_type : string)
    : result (list Z) :=
  if String.eqb axis_type "iterations" then
    spaces <- get_iterations self ;;
    Ok (arange (length spaces))
  else if String.eqb axis_type "shots" then
    spaces <- get_iterations self ;;
    products <- mapM shots_of spaces ;;
    array <- np_array products ;;
    Ok (cumsum array)
  else Raise (InvalidAxis axis_type).

End Axes.

Section Series.
Context {A : Type} `{Numpy A}.

Definition get_costs (self : ExperimentRun) : result A :=
  spaces <- get_iterations self ;;
  costs <- mapM (fun i => getattr i "cost") spaces ;;
  np_array_values costs.

Definition get_params (self : ExperimentRun) : result A :=
  spaces <- get_iterations self ;;
  params <- mapM (fun i => getattr i "params") spaces ;;
  np_array_values params.

End Series.
End Runs.

(* ================================================================== *)
(** ** Concrete collaborators

    Instances of the interfaces above, used to run the definitions on
    concrete inputs. *)

Module Instances.

(** exact rational arithmetic *)
#[export] Instance Qc_scalar : Scalar Qc := {|
  zero := Q2Qc 0;
  one := Q2Qc 1;
  two := Q2Qc 2;
  four := Q2Qc 4;
  add := Qcplus;
  sub := Qcminus;
  mul := Qcmult;
  div := Qcdiv;
  neg := Qcopp;
  fabs := Qcabs
|}.

Definition qc (z : Z) : Qc := Q2Qc (inject_Z z).

(** a simplifier that keeps the terms as they are *)
Definition keep_terms : Pennylane Qc := fun hm => hm.

(** *** Rationals with a value that is not a number

    [None] stands for the results that are not finite numbers: a division
    by zero gives it, and every operation hands it on. *)
Definition fq : Type := option Qc.

Definition fq_lift (op : Qc -> Qc -> Qc) (a b : fq) : fq :=
  match a, b with
  | Some x, Some y => Some (op x y)
  | _, _ => None
  end.

Definition fq_div (a b : fq) : fq :=
  match a, b with
  | Some x, Some y =>
      if Qc_eq_dec y (Q2Qc 0) then None else Some (Qcdiv x y)
  | _, _ => None
  end.

#[export] Instance fq_scalar : Scalar fq := {|
  zero := Some (Q2Qc 0);
  one := Some (Q2Qc 1);
  two := Some (Q2Qc 2);
  four := Some (Q2Qc 4);
  add := fq_lift Qcplus;
  sub := fq_lift Qcminus;
  mul := fq_lift Qcmult;
  div := fq_div;
  neg := option_map Qcopp;
  fabs := option_map Qcabs
|}.

#[export] Instance fq_non_numbers : NonNumbers fq := {|
  nan := None;
  finite := fun x => x <> None
|}.

Definition fq_of (z : Z) : fq := Some (qc z).

Definition fq_mean (v : vector fq) : fq :=
  div (fsum v) (fq_of (Z.of_nat (length v))).

Definition fq_covariance (a b : vector fq) : fq :=
  div (fsum (map (fun xy => mul (sub (fst xy) (fq_mean a))
                                (sub (snd xy) (fq_mean b)))
                 (combine a b)))
      (fq_of (Z.of_nat (length a) - 1)).

(** A stand-in for the correlation coefficient [r] of two samples:
    [r * |r|], which needs no square root, is [1] on two equal samples
    that vary, and is not a number as soon as one sample is constant. *)
Definition signed_square_correlation : Correlation fq :=
  fun a b =>
    div (mul (fq_covariance a b) (fabs (fq_covariance a b)))
        (mul (fq_covariance a a) (fq_covariance b b)).

Definition keep_all_terms : Pennylane fq := fun hm => hm.

(** keys are integers below [2 ^ 31]; a step of a linear congruential
    generator leads from a key to the next, the two halves of a split
    are two steps apart, and the indices drawn with a key are read off
    the steps that follow it *)
Definition lcg_step (key : Z) : Z :=
  ((1103515245 * key + 12345) mod 2147483648)%Z.

Fixpoint lcg_draws (key : Z) (bound samples : nat) : list nat :=
  match samples with
  | 0 => []
  | S samples' =>
      Z.to_nat ((lcg_step key / 65536) mod Z.of_nat bound)
      :: lcg_draws (lcg_step key) bound samples'
  end.

Definition lcg_random : Random Z := {|
  split := fun key => (lcg_step key, lcg_step (lcg_step (key + 1)));
  choice := lcg_draws
|}.

(** an ansatz builder that refuses every parameter vector *)
Definition rejecting_ansatz : AnsatzLib Qc :=
  fun _ _ _ _ => Raise LibraryError.

(** an ansatz builder that asks for exactly [2 * n_var - 1] parameters:
    one per wire and one per pair of neighbouring wires *)
Definition strict_ansatz : AnsatzLib Qc :=
  fun params _ _ n_var =>
    if Nat.eqb (length params) (2 * n_var - 1) then
      Ok (mkHamiltonian params
            (map PauliZ (seq 0 n_var) ++
             map (fun w => Tensor (PauliZ w) (PauliZ (S w)))
                 (seq 0 (n_var - 1))))
    else Raise ShapeError.

(** a small objective matrix that is not symmetric *)
Definition sample_objective : matrix Qc :=
  [[qc 1; qc 2]; [qc 3; qc 4]].

Definition jax_default : JaxConfig := 32%Z.
Definition jax_x64 : JaxConfig := 64%Z.

(** *** A reader for number, list and tuple literals

    The part of the literal syntax that a [params] field uses: decimal
    numbers with an optional sign, fraction and exponent, [None], [True],
    [False], and lists and tuples of these.  Every other text is
    reported as a decode error. *)

Definition is_digit (c : ascii) : bool :=
  (48 <=? nat_of_ascii c) && (nat_of_ascii c <=? 57).

Definition is_name_char (c : ascii) : bool :=
  let code := nat_of_ascii c in
  is_digit c || ((65 <=? code) && (code <=? 90))
  || ((97 <=? code) && (code <=? 122)) || (code =? 95).

Definition is_space (c : ascii) : bool :=
  (nat_of_ascii c =? 32) || (nat_of_ascii c =? 9)
  || (nat_of_ascii c =? 10) || (nat_of_ascii c =? 13).

Fixpoint skip_spaces (s : list ascii) : list ascii :=
  match s with
  | c :: rest => if is_space c then skip_spaces rest else s
  | [] => []
  end.

(** digits read so far as a number, how many were read, and the rest *)
Fixpoint take_digits (s : list ascii) (acc : Z) (count : nat)
    : Z * nat * list ascii :=
  match s with
  | c :: rest =>
      if is_digit c
      then take_digits rest (10 * acc + Z.of_nat (nat_of_ascii c - 48))%Z
                       (S count)
      else (acc, count, s)
  | [] => (acc, count, [])
  end.

(** [mantissa * 10 ^ exponent] as a reduced fraction *)
Definition decimal (mantissa exponent : Z) : Q :=
  if (0 <=? exponent)%Z
  then inject_Z (mantissa * 10 ^ exponent)
  else Qred (mantissa # Z.to_pos (10 ^ (- exponent))).

Definition parse_exponent (s : list ascii) : option (Z * list ascii) :=
  match s with
  | c :: rest =>
      if (nat_of_ascii c =? 101) || (nat_of_ascii c =? 69) then
        let '(negative, digits) :=
          match rest with
          | "-"%char :: r => (true, r)
          | "+"%char :: r => (false, r)
          | _ => (false, rest)
          end in
        let '(e, count, rest') := take_digits digits 0%Z 0 in
        if count =? 0 then None
        else Some (if negative then (- e)%Z else e, rest')
      else Some (0%Z, s)
  | [] => Some (0%Z, [])
  end.

Definition parse_number (negative : bool) (s : list ascii)
    : option (value * list ascii) :=
  let '(whole, whole_digits, rest) := take_digits s 0%Z 0 in
  let signed (z : Z) := if negative then (- z)%Z else z in
  match rest with
  | "."%char :: after =>
      let '(mantissa, all_digits, rest') :=
        take_digits after whole whole_digits in
      if all_digits =? 0 then None
      else match parse_exponent rest' with
           | Some (e, rest'') =>
               Some (VFloat (decimal (signed mantissa)
                         (e - Z.of_nat (all_digits - whole_digits))),
                     rest'')
           | None => None
           end
  | _ =>
      if whole_digits =? 0 then None
      else match rest with
           | c :: _ =>
               if (nat_of_ascii c =? 101) || (nat_of_ascii c =? 69) then
                 match parse_exponent rest with
                 | Some (e, rest') =>
                     Some (VFloat (decimal (signed whole) e), rest')
                 | None => None
                 end
               else Some (VInt (signed whole), rest)
           | [] => Some (VInt (signed whole), [])
           end
  end.

Fixpoint strip_prefix (word s : list ascii) : option (list ascii) :=
  match word, s with
  | [], _ => Some s
  | w :: word', c :: rest =>
      if Ascii.eqb w c then strip_prefix word' rest else None
  | _ :: _, [] => None
  end.

Definition parse_keyword (word : string) (v : value) (s : list ascii)
    : option (value * list ascii) :=
  match strip_prefix (list_ascii_of_string word) s with
  | Some (c :: rest) => if is_name_char c then None else Some (v, c :: rest)
  | Some [] => Some (v, [])
  | None => None
  end.

Definition parse_atom (s : list ascii) : option (value * list ascii) :=
  match s with
  | "-"%char :: rest => parse_number true (skip_spaces rest)
  | "+"%char :: rest => parse_number false (skip_spaces rest)
  | "N"%char :: _ => parse_keyword "None" VNone s
  | "T"%char :: _ => parse_keyword "True" (VBool true) s
  | "F"%char :: _ => parse_keyword "False" (VBool false) s
  | _ => parse_number false s
  end.

Fixpoint parse_value (fuel : nat) (s : list ascii)
    : option (value * list ascii) :=
  match fuel with
  | 0 => None
  | S fuel' =>
      match skip_spaces s with
      | "["%char :: rest =>
          match parse_items fuel' "]"%char rest with
          | Some (items, _, rest') => Some (VList items, rest')
          | None => None
          end
      | "("%char :: rest =>
          match parse_items fuel' ")"%char rest with
          | Some ([single], false, rest') => Some (single, rest')
          | Some (items, _, rest') => Some (VTuple items, rest')
          | None => None
          end
      | other => parse_atom other
      end
  end
with parse_items (fuel : nat) (closing : ascii) (s : list ascii)
    : option (list value * bool * list ascii) :=
  match fuel with
  | 0 => None
  | S fuel' =>
      match skip_spaces s with
      | [] => None
      | c :: rest =>
          if Ascii.eqb c closing then Some ([], false, rest)
          else
            match parse_value fuel' (c :: rest) with
            | None => None
            | Some (v, after) =>
                match skip_spaces after with
                | [] => None
                | d :: after' =>
                    if Ascii.eqb d ","%char then
                      match parse_items fuel' closing after' with
                      | Some (vs, _, rest') => Some (v :: vs, true, rest')
                      | None => None
                      end
                    else if Ascii.eqb d closing then Some ([v], false, after')
                    else None
                end
            end
      end
  end.

Definition read_literal : Ast :=
  fun text =>
    let s := list_ascii_of_string text in
    match parse_value (2 * length s + 2) s with
    | Some (v, rest) =>
        match skip_spaces rest with
        | [] => Ok v
        | _ :: _ => Raise DecodeError
        end
    | None => Raise DecodeError
    end.

(** *** Sample data *)

(** three observations of one feature, and three response vectors, the
    last of them constant *)
Definition line_features : matrix fq := [[fq_of 0]; [fq_of 1]; [fq_of 3]].
Definition sample_response : vector fq := [fq_of 1; fq_of 2; fq_of 4].
Definition other_response : vector fq := [fq_of 5; fq_of 0; fq_of 2].
Definition flat_response : vector fq := [fq_of 5; fq_of 5; fq_of 5].

(** three observations of three features, and of two features *)
Definition square_features : matrix fq :=
  [[fq_of 1; fq_of 0; fq_of 2];
   [fq_of 2; fq_of 3; fq_of 1];
   [fq_of 3; fq_of 1; fq_of 5]].
Definition wide_features : matrix fq :=
  [[fq_of 1; fq_of 0]; [fq_of 2; fq_of 3]; [fq_of 3; fq_of 1]].

#[local] Existing Instance signed_square_correlation.
#[local] Existing Instance keep_all_terms.
#[local] Existing Instance lcg_random.

Definition quarter : fq := Some (Q2Qc (1 # 4)).

Definition sample_problem : FeatureSelection.FeatureSelectionProblem :=
  FeatureSelection.mkProblem 7%Z square_features sample_response quarter 3 3.

(** two equal observations of one feature and of the response *)
Definition constant_problem : FeatureSelection.FeatureSelectionProblem :=
  FeatureSelection.mkProblem 7%Z (repeat [fq_of 1] 2) (repeat (fq_of 3) 2)
    quarter 2 1.

Definition iteration_with (samples shots : Z) : Runs.namespace :=
  [("cost", VFloat (1 # 2)); ("params", VList [VFloat 1; VFloat 2]);
   ("samples", VInt samples); ("shots_per_hamiltonians", VInt shots)]%string.

Definition run_with (samples shots : Z) : Runs.ExperimentRun :=
  Runs.mkRun
    (Some [iteration_with samples shots; iteration_with samples shots])
    [("run_number", VInt 0)]%string.

End Instances.

(* ================================================================== *)
(** ** Vocabulary of the statements *)

Section Vocabulary.
Context {F : Type} `{Scalar F}.

(** the index pairs [(m, n)] that the two loops of [qubo_hamiltonian]
    visit when they start from [n = size], in the order of the visits *)
Definition qubo_visits (size : nat) : list (nat * nat) :=
  flat_map (fun m => map (pair m) (seq 0 (size - m))) (seq 0 size).

(** what one visit appends to [coeffs] and to [terms] *)
Definition visit_coeff (j : matrix F) (h : vector F) (v : nat * nat) : F :=
  if negb (Nat.eqb (fst v) (snd v)) then entry j (fst v) (snd v)
  else item h (fst v).

Definition visit_term (v : nat * nat) : observable :=
  if negb (Nat.eqb (fst v) (snd v))
  then Tensor (PauliZ (fst v)) (PauliZ (snd v))
  else PauliZ (fst v).

Definition symmetric (M : matrix F) : Prop :=
  forall i j, entry M i j = entry M j i.

(** entry [(i, j)] of the objective matrix, written out: the absolute
    correlation of features [i] and [j] times [1 - alpha], minus, on the
    diagonal, [alpha] times the absolute correlation of the response with
    feature [i] *)
Definition objective_cell `{Correlation F} (X : matrix F) (y : vector F)
    (alpha : F) (i j : nat) : F :=
  sub (mul (fabs (pearson (column X i) (column X j))) (sub one alpha))
      (mul alpha (if Nat.eqb i j then fabs (pearson y (column X i))
                  else zero)).

(** the key an instance holds after [calls] calls of
    [sample_hamiltonian]: the first half of the split, time after time *)
Fixpoint later_key {Key} `{Random Key} (initial : Key) (calls : nat) : Key :=
  match calls with
  | 0 => initial
  | S calls' => fst (split (later_key initial calls'))
  end.

(** the Hamiltonian, or the exception, that a call of
    [sample_hamiltonian] produces when it resamples with the key [used] *)
Definition hamiltonian_drawn `{Correlation F} `{Pennylane F}
    {Key} `{Random Key} (features : matrix F) (response : vector F)
    (samples : nat) (weight : F) (used : Key) : result (Hamiltonian F) :=
  let (drawn_features, drawn_response) :=
    Utils.resample_data features response samples used in
  objective <-
    FeatureSelection.objective_matrix drawn_features drawn_response weight ;;
  FeatureSelection.qubo_hamiltonian objective.

(** the sum of a list of integers, without bound *)
Definition total (xs : list Z) : Z := fold_right Z.add 0%Z xs.

(** [products] lists, iteration by iteration, [samples] times
    [shots_per_hamiltonians], both of them positive integers *)
Definition positive_shots (spaces : list Runs.namespace)
    (products : list Z) : Prop :=
  Forall2 (fun i p =>
             exists s t : Z,
               Runs.getattr i "samples" = Ok (VInt s) /\
               Runs.getattr i "shots_per_hamiltonians" = Ok (VInt t) /\
               (0 < s)%Z /\ (0 < t)%Z /\ p = (s * t)%Z)
          spaces products.

(** how [__init__] leaves an iteration [after] that [loads] delivered as
    [before]: a [params] string is replaced by what [literal_eval] makes
    of it, any other [params] is kept *)
Definition decoded_from `{Ast} (before after : Runs.namespace) : Prop :=
  match Runs.getattr before "params" with
  | Ok (VStr text) =>
      exists v, literal_eval text = Ok v /\
                after = Runs.setattr before "params" v /\
                Runs.getattr after "params" = Ok v
  | Ok _ => after = before
  | Raise _ => False
  end.

(** a run log with one iteration whose [params] field is [params] *)
Definition log_with_params (params : value) : list (string * value) :=
  [("run_number", VInt 3);
   ("iterations",
    VList [VDict [("cost", VFloat (1 # 2)); ("params", params);
                  ("samples", VInt 1024);
                  ("shots_per_hamiltonians", VInt 100)]])]%string.

(** [products] lists, iteration by iteration, [samples] times
    [shots_per_hamiltonians], both of them integers of any sign *)
Definition integer_shots (spaces : list Runs.namespace)
    (products : list Z) : Prop :=
  Forall2 (fun i p =>
             exists s t : Z,
               Runs.getattr i "samples" = Ok (VInt s) /\
               Runs.getattr i "shots_per_hamiltonians" = Ok (VInt t) /\
               p = (s * t)%Z)
          spaces products.

(** what [get_params] reads in an iteration that [loads] delivered as
    [before]: the literal a [params] string denotes, or the [params]
    value itself *)
Definition params_read `{Ast} (before : Runs.namespace) (p : value)
    : Prop :=
  match Runs.getattr before "params" with
  | Ok (VStr text) => literal_eval text = Ok p
  | Ok v => p = v
  | Raise _ => False
  end.

(** the keys of a log that [setattr] stores in the instance dictionary
    as they are: every name but ['iterations'], which [__init__] treats
    apart, and the three names that are not dictionary entries *)
Definition ordinary_key (name : string) : Prop :=
  name <> "iterations"%string /\ name <> "__dict__"%string /\
  name <> "__class__"%string /\ name <> "__weakref__"%string.

(** feature and response samples: [k >= 1] feature columns, [N >= 2]
    rows, one response per row *)
Definition well_formed_data (X : matrix F) (y : vector F) : Prop :=
  1 <= ncols X /\ rectangular (ncols X) X /\ 2 <= length X /\
  length y = length X.

(** the shapes [(N, k)] that [corrcoef] takes beside a response of shape
    [(N,)]: one feature, or as many features as observations *)
Definition accepted_shape (X : matrix F) : Prop :=
  ncols X = 1 \/ ncols X = length X.

(** the correlation matrix of the feature columns and the response, as
    [corrcoef] builds it on the shapes it takes *)
Definition correlations `{Correlation F} (X : matrix F) (y : vector F)
    : matrix F :=
  map (fun a =>
         map (fun b => pearson a b)
             (map (column X) (seq 0 (ncols X)) ++ [y]))
      (map (column X) (seq 0 (ncols X)) ++ [y]).

(** the table with [rows] rows and [cols] columns of the values of [f] *)
Definition table (f : nat -> nat -> F) (rows cols : nat) : matrix F :=
  map (fun i => map (fun j => f i j) (seq 0 cols)) (seq 0 rows).

End Vocabulary.

(* ================================================================== *)
(** ** Sample run logs and parameters *)

Module Samples.
Import Instances.

(** arrays left as the list of their values *)
Definition plain_array : Numpy (list value) := fun values => Ok values.

Definition raw_iteration (params : value) : Runs.namespace :=
  [("cost", VFloat (1 # 2)); ("params", params);
   ("samples", VInt 1024); ("shots_per_hamiltonians", VInt 100)]%string.

(** [log_with_params params] after the first loop of [__init__] *)
Definition loaded_log (params : value) : Runs.ExperimentRun :=
  Runs.mkRun (Some [raw_iteration params]) [("run_number", VInt 3)]%string.

Definition decoded_pair : value := VList [VFloat (1 # 1); VFloat (2 # 1)].

Definition log_without_iterations : list (string * value) :=
  [("run_number", VInt 3); ("log_file", VStr "run.json")]%string.

Definition log_without_params : list (string * value) :=
  [("iterations", VList [VDict [("cost", VFloat (1 # 2))]])]%string.

(** five parameters for two wires and one layer *)
Definition five_params : vector Qc := [qc 1; qc 2; qc 3; qc 4; qc 5].

Definition five_params_problem : Hamiltonian Qc :=
  mkHamiltonian [qc 3; qc 4; qc 5]
    [PauliZ 0; PauliZ 1; Tensor (PauliZ 0) (PauliZ 1)].

End Samples.

(* ================================================================== *)
(** ** Lists *)

Lemma nth_map_seq {A} (f : nat -> A) (len i : nat) (d : A) :
  i < len -> nth i (map f (seq 0 len)) d = f i.
Proof.
  intros Hi.
  rewrite (nth_indep _ d (f 0)) by (rewrite length_map, length_seq; exact Hi).
  rewrite (map_nth f (seq 0 len) 0 i), seq_nth by exact Hi.
  reflexivity.
Qed.

Lemma combine_map_same {A B C} (f : A -> B) (g : A -> C) (l : list A) :
  combine (map f l) (map g l) = map (fun x => (f x, g x)) l.
Proof.
  induction l as [|x l IH]; simpl; [reflexivity | now rewrite IH].
Qed.

Lemma removelast_snoc {A} (l : list A) (x : A) : removelast (l ++ [x]) = l.
Proof.
  rewrite removelast_app by discriminate. simpl. apply app_nil_r.
Qed.

Lemma last_cons_default {A} (l : list A) (x d : A) :
  last (x :: l) d = last l x.
Proof.
  revert x d. induction l as [|y l IH]; intros x d; [reflexivity|].
  change (last (x :: y :: l) d) with (last (y :: l) d).
  now rewrite (IH y d), (IH y x).
Qed.

Lemma last_snoc {A} (l : list A) (x d : A) : last (l ++ [x]) d = x.
Proof. apply last_last. Qed.

Lemma last_seq (len d : nat) : 0 < len -> last (seq 0 len) d = len - 1.
Proof.
  destruct len as [|len]; [lia|]. intros _.
  rewrite seq_S, last_snoc. simpl. lia.
Qed.

(* ================================================================== *)
(** ** The loops of [qubo_hamiltonian] *)

Section QuboLoops.
Import FeatureSelection.
Context {F : Type} `{Scalar F}.
Variables (j : matrix F) (h : vector F).

Lemma inner_loop (m : nat) (l : list nat) (vars : qubo_vars) :
  fold_left (qubo_inner_body j h m) l vars
  = mkVars (last l (var_n vars))
      (var_coeffs vars ++ map (fun c => visit_coeff j h (m, c)) l)
      (var_terms vars ++ map (fun c => visit_term (m, c)) l).
Proof.
  revert vars. induction l as [|c l IH]; intros vars.
  - simpl. rewrite !app_nil_r. now destruct vars.
  - cbn [fold_left map]. rewrite IH.
    unfold qubo_inner_body, visit_coeff, visit_term. cbn [fst snd].
    destruct (negb (m =? c)); cbn [var_n var_coeffs var_terms];
      rewrite <- !app_assoc; cbn [app];
      now rewrite last_cons_default.
Qed.

Lemma outer_loop (size len : nat) :
  forall start vars,
    var_n vars = size - start -> start + len <= size ->
    fold_left (qubo_outer_body j h) (seq start len) vars
    = mkVars (size - (start + len))
        (var_coeffs vars ++
         map (visit_coeff j h)
             (flat_map (fun m => map (pair m) (seq 0 (size - m)))
                       (seq start len)))
        (var_terms vars ++
         map visit_term
             (flat_map (fun m => map (pair m) (seq 0 (size - m)))
                       (seq start len))).
Proof.
  induction len as [|len IH]; intros start vars Hn Hle.
  - simpl. rewrite !app_nil_r, Nat.add_0_r, <- Hn. now destruct vars.
  - cbn [seq fold_left flat_map]. unfold qubo_outer_body at 2.
    rewrite inner_loop, Hn, IH.
    + cbn [var_coeffs var_terms]. rewrite !map_app, !map_map, <- !app_assoc.
      cbn [fst snd]. f_equal. lia.
    + cbn [var_n]. rewrite last_seq by lia. lia.
    + lia.
Qed.

Lemma qubo_loops_visits (size : nat) :
  qubo_loops j h size
  = mkVars 0 (map (visit_coeff j h) (qubo_visits size))
             (map visit_term (qubo_visits size)).
Proof.
  unfold qubo_loops, qubo_visits.
  rewrite (@outer_loop size size 0) by (cbn [var_n]; lia).
  cbn [var_coeffs var_terms app]. f_equal. lia.
Qed.

End QuboLoops.

Lemma in_qubo_visits (size m c : nat) :
  In (m, c) (qubo_visits size) <-> m < size /\ c < size - m.
Proof.
  unfold qubo_visits. rewrite in_flat_map. split.
  - intros (m' & Hm' & Hin). apply in_map_iff in Hin.
    destruct Hin as (c' & Heq & Hc'). inversion Heq; subst.
    apply in_seq in Hm'. apply in_seq in Hc'. lia.
  - intros [Hm Hc]. exists m. split; [apply in_seq; lia|].
    apply in_map. apply in_seq. lia.
Qed.

Lemma qubo_visits_count_from (size len : nat) :
  forall start,
    start + len <= size ->
    2 * length (flat_map (fun m => map (pair m) (seq 0 (size - m)))
                         (seq start len))
    = len * (2 * (size - start) - len + 1).
Proof.
  induction len as [|len IH]; intros start Hle; [reflexivity|].
  cbn [seq flat_map]. rewrite length_app, length_map, length_seq.
  rewrite Nat.mul_add_distr_l, IH by lia.
  replace (size - S start) with (size - start - 1) by lia.
  remember (size - start) as d eqn:Hd.
  assert (Hd' : len + 1 <= d) by lia. clear Hd IH Hle.
  replace (2 * d - S len + 1) with (2 * d - len) by lia.
  replace (2 * (d - 1) - len + 1) with (2 * d - len - 1) by lia.
  replace (2 * d - len) with (S (2 * d - len - 1)) by lia.
  rewrite Nat.mul_succ_r. lia.
Qed.

Lemma qubo_visits_count (size : nat) :
  2 * length (qubo_visits size) = size * (size + 1).
Proof.
  unfold qubo_visits.
  rewrite qubo_visits_count_from by lia.
  rewrite Nat.sub_0_r. f_equal. lia.
Qed.

Lemma visit_term_linear (v : nat * nat) (w : nat) :
  visit_term v = PauliZ w -> v = (w, w).
Proof.
  destruct v as [m c]. unfold visit_term. cbn [fst snd].
  destruct (Nat.eqb_spec m c); cbn [negb]; [|discriminate].
  intros E. inversion E. now subst.
Qed.

Lemma is_linear_visit (m c : nat) :
  FeatureSelection.is_linear (visit_term (m, c)) = Nat.eqb m c.
Proof.
  unfold visit_term. cbn [fst snd]. now destruct (m =? c).
Qed.

Lemma linear_in_row (m : nat) :
  forall start len,
    length (filter FeatureSelection.is_linear
              (map visit_term (map (pair m) (seq start len))))
    = if (start <=? m) && (m <? start + len) then 1 else 0.
Proof.
  intros start len. revert start.
  induction len as [|len IH]; intros start.
  - cbn [seq map filter length].
    destruct (Nat.leb_spec start m), (Nat.ltb_spec m (start + 0));
      cbn; lia.
  - cbn [seq map filter]. rewrite is_linear_visit.
    destruct (Nat.eqb_spec m start); cbn [length]; rewrite IH;
      destruct (Nat.leb_spec (S start) m),
               (Nat.ltb_spec m (S start + len)),
               (Nat.leb_spec start m),
               (Nat.ltb_spec m (start + S len)); cbn; lia.
Qed.

Lemma linear_visits_bound (g : nat -> nat) (l : list nat) :
  length (filter FeatureSelection.is_linear
            (map visit_term (flat_map (fun m => map (pair m) (seq 0 (g m))) l)))
  <= length l.
Proof.
  induction l as [|m l IH]; [reflexivity|].
  cbn [flat_map]. rewrite map_app, filter_app, length_app, linear_in_row.
  cbn [length]. destruct ((0 <=? m) && (m <? 0 + g m)); lia.
Qed.

Section QuboClaims.
Import FeatureSelection Validation.
Context {F : Type} `{Scalar F} `{Pennylane F}.

Lemma qubo_unsimplified_visits (objective : matrix F) :
  qubo_unsimplified objective
  = mkHamiltonian
      (map (visit_coeff (mdiv objective four)
                        (map (fun s => div (neg s) two) (sum_axis0 objective)))
           (qubo_visits (nrows objective)))
      (map visit_term (qubo_visits (nrows objective))).
Proof.
  unfold qubo_unsimplified. cbv zeta. now rewrite qubo_loops_visits.
Qed.

Lemma square_shape (size : nat) (objective : matrix F) :
  is_square size objective -> shape objective = [size; size].
Proof.
  intros [Hlen Hrect]. unfold shape, matrix_shape. rewrite Hlen.
  destruct objective as [|r rest].
  - simpl in Hlen. now subst.
  - inversion Hrect; subst. now f_equal; f_equal.
Qed.

Lemma qubo_hamiltonian_square (size : nat) (objective : matrix F) :
  is_square size objective ->
  qubo_hamiltonian objective = Ok (simplify (qubo_unsimplified objective)).
Proof.
  intros Hsq. unfold qubo_hamiltonian, qubo_unsimplified, check_ndarray.
  cbv zeta. rewrite (square_shape Hsq).
  replace (nrows objective) with size by (symmetry; apply Hsq).
  destruct (list_eq_dec Nat.eq_dec [size; size] [size; size]) as [_|Hne];
    [reflexivity | now elim Hne].
Qed.

Lemma qubo_hamiltonian_not_square (objective : matrix F) :
  ncols objective <> nrows objective ->
  qubo_hamiltonian objective = Raise ShapeError.
Proof.
  intros Hne. unfold qubo_hamiltonian, check_ndarray. cbv zeta.
  destruct (list_eq_dec Nat.eq_dec (shape objective)
              [nrows objective; nrows objective]) as [Heq|_];
    [|reflexivity].
  unfold shape, matrix_shape in Heq. inversion Heq as [Hc].
  now elim Hne.
Qed.

(** C1: on every square objective matrix with at least two rows the
    loops of [qubo_hamiltonian] leave terms out.  The call returns the
    simplified form of a Hamiltonian whose terms are those of the visits
    [(m, c)] with [c < size - m]: there are [size * (size + 1) / 2] of
    them instead of [size * size], the linear term of the last variable
    is not among them, and fewer than [size] linear terms are emitted. *)
Theorem qubo_hamiltonian_misses_terms (size : nat) (objective : matrix F) :
  is_square size objective ->
  2 <= size ->
  qubo_hamiltonian objective = Ok (simplify (qubo_unsimplified objective)) /\
  ops (qubo_unsimplified objective) = map visit_term (qubo_visits size) /\
  2 * length (ops (qubo_unsimplified objective)) = size * (size + 1) /\
  ~ In (PauliZ (size - 1)) (ops (qubo_unsimplified objective)) /\
  length (filter is_linear (ops (qubo_unsimplified objective))) < size.
Proof.
  intros Hsq Hsize.
  assert (Hops : ops (qubo_unsimplified objective)
                 = map visit_term (qubo_visits size)).
  { rewrite qubo_unsimplified_visits. cbn [ops].
    now replace (nrows objective) with size by (symmetry; apply Hsq). }
  split; [now apply qubo_hamiltonian_square with size|].
  split; [exact Hops|]. rewrite Hops.
  split; [rewrite length_map; apply qubo_visits_count|]. split.
  - intros Hin. apply in_map_iff in Hin. destruct Hin as (v & Hv & Hin).
    apply visit_term_linear in Hv. subst v.
    apply in_qubo_visits in Hin. lia.
  - unfold qubo_visits.
    assert (Hseq : seq 0 size = seq 0 (size - 1) ++ [size - 1]).
    { replace size with (S (size - 1)) at 1 by lia. now rewrite seq_S. }
    rewrite Hseq, flat_map_app, map_app, filter_app, length_app.
    pose proof (linear_visits_bound (fun m => size - m) (seq 0 (size - 1)))
      as Hbound.
    rewrite length_seq in Hbound.
    cbn [flat_map plus]. rewrite app_nil_r, linear_in_row.
    destruct (Nat.leb_spec 0 (size - 1)),
             (Nat.ltb_spec (size - 1) (0 + (size - (size - 1))));
      cbn [andb length]; lia.
Qed.

End QuboClaims.

Section LinearCoefficients.
Import FeatureSelection.
Context {F : Type} `{Scalar F}.

Lemma weighted_terms_visits (objective : matrix F) :
  weighted_terms (qubo_unsimplified objective)
  = map (fun v =>
           (visit_coeff (mdiv objective four)
              (map (fun s => div (neg s) two) (sum_axis0 objective)) v,
            visit_term v))
        (qubo_visits (nrows objective)).
Proof.
  unfold weighted_terms. rewrite qubo_unsimplified_visits.
  cbn [coeffs ops]. apply combine_map_same.
Qed.

Lemma square_ncols (size : nat) (objective : matrix F) :
  is_square size objective -> 0 < size -> ncols objective = size.
Proof.
  intros [Hlen Hrect] Hpos. destruct objective as [|r rest].
  - simpl in Hlen. lia.
  - now inversion Hrect.
Qed.

Lemma square_row_length (size m : nat) (objective : matrix F) :
  is_square size objective -> m < size ->
  length (nth m objective []) = size.
Proof.
  intros [Hlen Hrect] Hm. unfold rectangular in Hrect.
  rewrite Forall_forall in Hrect. apply Hrect, nth_In. lia.
Qed.

Lemma symmetric_column_is_row (size m : nat) (objective : matrix F) :
  is_square size objective -> symmetric objective -> m < size ->
  column objective m = nth m objective [].
Proof.
  intros Hsq Hsym Hm.
  apply (nth_ext _ _ zero zero).
  - unfold column. rewrite length_map, (square_row_length Hsq Hm).
    apply Hsq.
  - intros i _. unfold column.
    pose proof (map_nth (fun r : list F => nth m r zero) objective [] i)
      as Hnth.
    cbv beta in Hnth.
    replace (nth m [] zero) with zero in Hnth by (now destruct m).
    rewrite Hnth. apply (Hsym i m).
Qed.

(** C2, amended: on a square objective matrix, every linear term that
    [qubo_hamiltonian] emits for a variable [m] carries minus the sum of
    column [m] divided by 2; on a symmetric matrix this is also minus the
    sum of row [m] divided by 2. *)
Theorem linear_coefficient_is_column_sum
    (size : nat) (objective : matrix F) (m : nat) (c : F) :
  is_square size objective ->
  In (c, PauliZ m) (weighted_terms (qubo_unsimplified objective)) ->
  m < size /\
  c = div (neg (fsum (column objective m))) two /\
  (symmetric objective -> c = div (neg (row_sum objective m)) two).
Proof.
  intros Hsq Hin. rewrite weighted_terms_visits in Hin.
  apply in_map_iff in Hin. destruct Hin as (v & Heq & Hin).
  inversion Heq as [[Hc Hv]]. apply visit_term_linear in Hv. subst v.
  replace (nrows objective) with size in Hin by (symmetry; apply Hsq).
  apply in_qubo_visits in Hin. destruct Hin as [Hm _].
  clear Heq. subst c.
  assert (Hcol : visit_coeff (mdiv objective four)
                   (map (fun s => div (neg s) two) (sum_axis0 objective))
                   (m, m)
                 = div (neg (fsum (column objective m))) two).
  { unfold visit_coeff. cbn [fst snd].
    rewrite Nat.eqb_refl. cbn [negb]. unfold item, sum_axis0.
    rewrite map_map, (square_ncols Hsq) by lia.
    now rewrite nth_map_seq. }
  repeat split; [exact Hm | exact Hcol |].
  intros Hsym. rewrite Hcol. unfold row_sum.
  now rewrite (symmetric_column_is_row Hsq Hsym Hm).
Qed.

End LinearCoefficients.

Section QuboExamples.
Import FeatureSelection Instances.

Lemma sample_objective_square : is_square 2 sample_objective.
Proof. split; [reflexivity | repeat constructor]. Qed.

(** the run of the loops on [sample_objective]: three terms, and no
    linear term for variable 1 *)
Example qubo_sample_objective_terms :
  ops (qubo_unsimplified sample_objective)
  = [PauliZ 0; Tensor (PauliZ 0) (PauliZ 1); Tensor (PauliZ 1) (PauliZ 0)]
  /\ map this (coeffs (qubo_unsimplified sample_objective))
     = [(-2)%Q; 1 # 2; 3 # 4].
Proof. split; vm_compute; reflexivity. Qed.

Lemma qubo_hamiltonian_misses_terms_witness :
  is_square 2 sample_objective /\ 2 <= 2 /\
  ~ In (PauliZ 1) (ops (qubo_unsimplified sample_objective)).
Proof.
  split; [exact sample_objective_square|]. split; [lia|].
  exact (proj1 (proj2 (proj2 (proj2
    (@qubo_hamiltonian_misses_terms Qc Qc_scalar keep_terms 2
       sample_objective sample_objective_square (le_n 2)))))).
Defined.

(** C2 as stated fails on [sample_objective]: the linear term of
    variable 0 carries [-(1 + 3) / 2 = -2], and minus the sum of row 0
    divided by 2 is [-(1 + 2) / 2 = -3/2]. *)
Lemma linear_coefficient_not_row_sum :
  exists (m : nat) (c : Qc),
    In (c, PauliZ m) (weighted_terms (qubo_unsimplified sample_objective)) /\
    c <> div (neg (row_sum sample_objective m)) two.
Proof.
  exists 0, (div (neg (fsum (column sample_objective 0))) two). split.
  - left. reflexivity.
  - intros E. apply (f_equal this) in E. vm_compute in E. discriminate E.
Qed.

Lemma linear_coefficient_is_column_sum_witness :
  is_square 2 sample_objective /\
  In (div (neg (fsum (column sample_objective 0))) two, PauliZ 0)
     (weighted_terms (qubo_unsimplified sample_objective)) /\
  0 < 2.
Proof.
  split; [exact sample_objective_square|].
  assert (Hin : In (div (neg (fsum (column sample_objective 0))) two,
                    PauliZ 0)
                   (weighted_terms (qubo_unsimplified sample_objective))).
  { left. reflexivity. }
  split; [exact Hin|].
  exact (proj1 (@linear_coefficient_is_column_sum Qc Qc_scalar 2
                  sample_objective 0 _ sample_objective_square Hin)).
Defined.

End QuboExamples.

(* ================================================================== *)
(** ** The objective matrix *)

Lemma nth_map_in {A B} (f : A -> B) (l : list A) (i : nat) (d : B) (d' : A) :
  i < length l -> nth i (map f l) d = f (nth i l d').
Proof.
  intros Hi. rewrite (nth_indep _ d (f d')) by now rewrite length_map.
  apply map_nth.
Qed.

Section Tables.
Context {F : Type} `{Scalar F}.

Lemma table_entry (f : nat -> nat -> F) (rows cols i j : nat) :
  i < rows -> j < cols -> entry (table f rows cols) i j = f i j.
Proof.
  intros Hi Hj. unfold entry, table.
  rewrite (nth_map_seq _ _ Hi). now rewrite (nth_map_seq _ _ Hj).
Qed.

Lemma table_nrows (f : nat -> nat -> F) (rows cols : nat) :
  nrows (table f rows cols) = rows.
Proof. unfold nrows, table. now rewrite length_map, length_seq. Qed.

Lemma table_ncols (f : nat -> nat -> F) (rows cols : nat) :
  1 <= rows -> ncols (table f rows cols) = cols.
Proof.
  intros Hrows. unfold ncols, table.
  destruct rows as [|rows]; [lia|].
  cbn [seq map]. now rewrite length_map, length_seq.
Qed.

Lemma table_square (f : nat -> nat -> F) (size : nat) :
  is_square size (table f size size).
Proof.
  split; [apply table_nrows|].
  unfold rectangular, table. apply Forall_forall. intros row Hin.
  apply in_map_iff in Hin. destruct Hin as (i & <- & _).
  now rewrite length_map, length_seq.
Qed.

Lemma broadcast_index_below (size i : nat) :
  i < size -> broadcast_index size i = i.
Proof.
  intros Hi. unfold broadcast_index.
  destruct (Nat.eqb_spec size 1); [lia | reflexivity].
Qed.

Lemma msub_tables (f g : nat -> nat -> F) (size : nat) :
  1 <= size ->
  msub (table f size size) (table g size size)
  = Ok (table (fun i j => sub (f i j) (g i j)) size size).
Proof.
  intros Hsize. unfold msub.
  rewrite !table_nrows, !table_ncols by exact Hsize.
  unfold broadcast_dim. rewrite Nat.eqb_refl. f_equal.
  unfold table at 3. apply map_ext_in. intros i Hi. apply in_seq in Hi.
  apply map_ext_in. intros j Hj. apply in_seq in Hj.
  rewrite !broadcast_index_below by lia.
  now rewrite !table_entry by lia.
Qed.

End Tables.

Section ObjectiveClaims.
Import FeatureSelection.
Context {F : Type} `{Scalar F} `{Correlation F}.

(** the variables that [corrcoef] correlates: the feature columns, then
    the response *)
Lemma corrcoef_accepted (X : matrix F) (y : vector F) :
  well_formed_data X y -> accepted_shape X ->
  corrcoef X y = Ok (correlations X y).
Proof.
  intros (Hk & _ & Hn & Hy) Hshape. unfold corrcoef, correlations.
  cbv zeta.
  unfold nrows. rewrite Hy.
  assert (Hpromote : (ncols X =? length X) || (ncols X =? 1)
                     || (length X =? 1) = true).
  { destruct Hshape as [->| ->].
    - now rewrite Bool.orb_true_r.
    - now rewrite Nat.eqb_refl. }
  rewrite Hpromote. cbn [negb].
  destruct (Nat.eqb_spec (length X) 1); [lia|].
  rewrite length_map, length_seq.
  destruct (Nat.eqb_spec (ncols X) 0); [lia|].
  now rewrite Nat.eqb_refl.
Qed.

Lemma corrcoef_refused (X : matrix F) (y : vector F) :
  well_formed_data X y -> ~ accepted_shape X ->
  corrcoef X y = Raise ValueError.
Proof.
  intros (Hk & _ & Hn & Hy) Hshape. unfold corrcoef, accepted_shape in *.
  cbv zeta. rewrite Hy.
  destruct (Nat.eqb_spec (ncols X) (length X)); [tauto|].
  destruct (Nat.eqb_spec (ncols X) 1); [tauto|].
  destruct (Nat.eqb_spec (length X) 1); [lia|]. reflexivity.
Qed.

Lemma corrcoef_returns (X : matrix F) (y : vector F) (c : matrix F) :
  well_formed_data X y -> corrcoef X y = Ok c -> accepted_shape X.
Proof.
  intros Hwf Hc. unfold accepted_shape.
  destruct (Nat.eq_dec (ncols X) 1) as [|H1]; [now left|].
  destruct (Nat.eq_dec (ncols X) (length X)) as [|HN]; [now right|].
  rewrite corrcoef_refused in Hc; [discriminate | exact Hwf|].
  unfold accepted_shape. tauto.
Qed.

Lemma variables_length (X : matrix F) (y : vector F) :
  length (map (column X) (seq 0 (ncols X)) ++ [y]) = S (ncols X).
Proof. rewrite length_app, length_map, length_seq. simpl. lia. Qed.

Lemma variables_feature (X : matrix F) (y : vector F) (i : nat) :
  i < ncols X ->
  nth i (map (column X) (seq 0 (ncols X)) ++ [y]) [] = column X i.
Proof.
  intros Hi. rewrite app_nth1 by (rewrite length_map, length_seq; exact Hi).
  now apply nth_map_seq.
Qed.

Lemma variables_response (X : matrix F) (y : vector F) :
  nth (ncols X) (map (column X) (seq 0 (ncols X)) ++ [y]) [] = y.
Proof.
  rewrite app_nth2 by (rewrite length_map, length_seq; lia).
  now rewrite length_map, length_seq, Nat.sub_diag.
Qed.

Lemma corrcoef_entry_features (X : matrix F) (y : vector F) (c : matrix F)
    (i j : nat) :
  well_formed_data X y -> corrcoef X y = Ok c ->
  i < ncols X -> j < ncols X ->
  entry c i j = pearson (column X i) (column X j).
Proof.
  intros Hwf Hc Hi Hj.
  rewrite (corrcoef_accepted Hwf (corrcoef_returns Hwf Hc)) in Hc.
  injection Hc as <-. unfold entry, correlations.
  pose proof (variables_length X y) as Hlen.
  assert (Hi' : i < length (map (column X) (seq 0 (ncols X)) ++ [y]))
    by (rewrite Hlen; lia).
  assert (Hj' : j < length (map (column X) (seq 0 (ncols X)) ++ [y]))
    by (rewrite Hlen; lia).
  rewrite (@nth_map_in _ _ _ _ i [] []) by exact Hi'.
  rewrite (@nth_map_in _ _ _ _ j zero []) by exact Hj'.
  now rewrite !variables_feature.
Qed.

Lemma corrcoef_entry_response (X : matrix F) (y : vector F) (c : matrix F)
    (i : nat) :
  well_formed_data X y -> corrcoef X y = Ok c ->
  i < ncols X ->
  entry c (ncols X) i = pearson y (column X i).
Proof.
  intros Hwf Hc Hi.
  rewrite (corrcoef_accepted Hwf (corrcoef_returns Hwf Hc)) in Hc.
  injection Hc as <-. unfold entry, correlations.
  pose proof (variables_length X y) as Hlen.
  assert (Hi' : i < length (map (column X) (seq 0 (ncols X)) ++ [y]))
    by (rewrite Hlen; lia).
  assert (Hk' : ncols X
                < length (map (column X) (seq 0 (ncols X)) ++ [y]))
    by (rewrite Hlen; lia).
  rewrite (@nth_map_in _ _ _ _ (ncols X) [] []) by exact Hk'.
  rewrite (@nth_map_in _ _ _ _ i zero []) by exact Hi'.
  now rewrite variables_response, variables_feature.
Qed.

Lemma objective_matrix_table (X : matrix F) (y : vector F) (alpha : F) :
  well_formed_data X y -> accepted_shape X ->
  objective_matrix X y alpha
  = Ok (table (objective_cell X y alpha) (ncols X) (ncols X)).
Proof.
  intros Hwf Hshape. unfold objective_matrix.
  rewrite (corrcoef_accepted Hwf Hshape). cbn [bind].
  unfold correlations.
  set (features := map (column X) (seq 0 (ncols X))).
  assert (Hblock :
    drop_last_row_col
      (map (fun a => map (fun b => pearson a b) (features ++ [y]))
           (features ++ [y]))
    = table (fun i j => pearson (column X i) (column X j))
            (ncols X) (ncols X)).
  { unfold drop_last_row_col, table, features.
    rewrite map_app. cbn [map]. rewrite removelast_snoc, !map_map.
    apply map_ext. intros i.
    rewrite map_app. cbn [map]. now rewrite removelast_snoc, map_map. }
  assert (Hrow :
    last_row_but_last
      (map (fun a => map (fun b => pearson a b) (features ++ [y]))
           (features ++ [y]))
    = Ok (map (fun j => pearson y (column X j)) (seq 0 (ncols X)))).
  { unfold last_row_but_last.
    rewrite map_app. cbn [map]. rewrite last_snoc.
    destruct (map _ features ++ _) eqn:Hrows.
    - now destruct (map (fun a => map (fun b => pearson a b)
                                      (features ++ [y])) features).
    - f_equal. rewrite map_app. cbn [map].
      unfold features. now rewrite removelast_snoc, map_map. }
  rewrite Hblock, Hrow. cbn [bind].
  assert (Hbody :
    mscale (mabs (table (fun i j => pearson (column X i) (column X j))
                        (ncols X) (ncols X)))
           (sub one alpha)
    = table (fun i j => mul (fabs (pearson (column X i) (column X j)))
                            (sub one alpha))
            (ncols X) (ncols X)).
  { unfold mscale, mabs, table. rewrite !map_map.
    apply map_ext. intros i. now rewrite !map_map. }
  assert (Himportance :
    smul alpha
      (diagflat (vabs (map (fun j => pearson y (column X j))
                           (seq 0 (ncols X)))))
    = table (fun i j => mul alpha (if Nat.eqb i j
                                   then fabs (pearson y (column X i))
                                   else zero))
            (ncols X) (ncols X)).
  { unfold smul, diagflat, vabs, table.
    rewrite !map_map, !length_map, length_seq.
    apply map_ext_in. intros i Hi. apply in_seq in Hi.
    rewrite map_map. apply map_ext. intros j.
    destruct (i =? j); [|reflexivity].
    unfold item. now rewrite nth_map_seq by lia. }
  rewrite Hbody, Himportance.
  rewrite msub_tables by apply Hwf. reflexivity.
Qed.

Lemma objective_matrix_refused (X : matrix F) (y : vector F) (alpha : F) :
  well_formed_data X y -> ~ accepted_shape X ->
  objective_matrix X y alpha = Raise ValueError.
Proof.
  intros Hwf Hshape. unfold objective_matrix.
  now rewrite (corrcoef_refused Hwf Hshape).
Qed.

Lemma objective_matrix_entry (X : matrix F) (y : vector F) (alpha : F)
    (c M : matrix F) (i j : nat) :
  well_formed_data X y -> corrcoef X y = Ok c ->
  objective_matrix X y alpha = Ok M ->
  i < ncols X -> j < ncols X ->
  entry M i j
  = sub (mul (fabs (entry c i j)) (sub one alpha))
        (mul alpha (if Nat.eqb i j then fabs (entry c (ncols X) i)
                    else zero)).
Proof.
  intros Hwf Hc HM Hi Hj.
  rewrite (objective_matrix_table alpha Hwf (corrcoef_returns Hwf Hc)) in HM.
  injection HM as <-.
  rewrite table_entry by assumption. unfold objective_cell.
  now rewrite (corrcoef_entry_features Hwf Hc Hi Hj),
              (corrcoef_entry_response Hwf Hc Hi).
Qed.

Lemma objective_matrix_ok (X : matrix F) (y : vector F) (alpha : F)
    (M : matrix F) :
  well_formed_data X y -> objective_matrix X y alpha = Ok M ->
  accepted_shape X /\
  M = table (objective_cell X y alpha) (ncols X) (ncols X).
Proof.
  intros Hwf HM.
  assert (Hshape : accepted_shape X).
  { unfold accepted_shape.
    destruct (Nat.eq_dec (ncols X) 1) as [|H1]; [now left|].
    destruct (Nat.eq_dec (ncols X) (length X)) as [|HN]; [now right|].
    rewrite objective_matrix_refused in HM; [discriminate | exact Hwf|].
    unfold accepted_shape. tauto. }
  split; [exact Hshape|].
  rewrite (objective_matrix_table alpha Hwf Hshape) in HM.
  now injection HM as <-.
Qed.

Lemma objective_matrix_returns (X : matrix F) (y : vector F) (alpha : F)
    (c : matrix F) :
  well_formed_data X y -> corrcoef X y = Ok c ->
  exists M, objective_matrix X y alpha = Ok M.
Proof.
  intros Hwf Hc. eexists.
  apply (objective_matrix_table alpha Hwf (corrcoef_returns Hwf Hc)).
Qed.

End ObjectiveClaims.

Section ObjectiveWeights.
Import FeatureSelection.
Context {F : Type} `{FloatLike F} `{Correlation F}.

(** C3, amended: with [alpha = 0], on data that [corrcoef] takes, the
    objective matrix is returned, and its diagonal entry [i] is the
    absolute value of entry [(i, i)] of the correlation matrix, the
    self-correlation of feature [i] kept in the redundancy term,
    whenever the correlation of the response with feature [i] is
    finite; it is not a number when that correlation is not. *)
Theorem diagonal_keeps_self_correlation
    (X : matrix F) (y : vector F) (c : matrix F) (i : nat) :
  well_formed_data X y ->
  corrcoef X y = Ok c ->
  i < ncols X ->
  exists M,
    objective_matrix X y zero = Ok M /\
    (finite (entry c (ncols X) i) ->
     entry M i i = fabs (entry c i i)) /\
    (entry c (ncols X) i = nan -> entry M i i = nan).
Proof.
  intros Hwf Hc Hi.
  destruct (objective_matrix_returns zero Hwf Hc) as [M HM].
  exists M. split; [exact HM|].
  rewrite (objective_matrix_entry zero Hwf Hc HM Hi Hi), Nat.eqb_refl.
  split.
  - intros Hfin.
    now rewrite mul_zero_l, !sub_zero_r, mul_one_r by now apply fabs_finite.
  - intros Hnan. now rewrite Hnan, fabs_nan, mul_nan_r, sub_nan_r.
Qed.


(** C7, amended: with [alpha = 0], two response vectors whose
    correlations with all features are finite give the same objective
    matrix, the table of the absolute correlations between feature
    columns. *)
Theorem alpha_zero_ignores_response
    (X : matrix F) (y1 y2 : vector F) (c1 c2 : matrix F) :
  well_formed_data X y1 ->
  well_formed_data X y2 ->
  corrcoef X y1 = Ok c1 ->
  corrcoef X y2 = Ok c2 ->
  (forall i, i < ncols X -> finite (entry c1 (ncols X) i)) ->
  (forall i, i < ncols X -> finite (entry c2 (ncols X) i)) ->
  exists M,
    objective_matrix X y1 zero = Ok M /\
    objective_matrix X y2 zero = Ok M /\
    M = table (fun i j => fabs (pearson (column X i) (column X j)))
              (ncols X) (ncols X).
Proof.
  intros Hwf1 Hwf2 Hc1 Hc2 Hfin1 Hfin2.
  assert (Htable : forall y c,
             well_formed_data X y -> corrcoef X y = Ok c ->
             (forall i, i < ncols X -> finite (entry c (ncols X) i)) ->
             objective_matrix X y zero
             = Ok (table (fun i j =>
                            fabs (pearson (column X i) (column X j)))
                         (ncols X) (ncols X))).
  { intros y c Hwf Hc Hfin.
    rewrite (objective_matrix_table zero Hwf (corrcoef_returns Hwf Hc)).
    f_equal. unfold table. apply map_ext_in. intros i Hi.
    apply in_seq in Hi. apply map_ext. intros j. unfold objective_cell.
    rewrite !sub_zero_r, mul_one_r.
    destruct (i =? j).
    - rewrite <- (corrcoef_entry_response Hwf Hc) by lia.
      rewrite mul_zero_l by (apply fabs_finite, Hfin; lia).
      apply sub_zero_r.
    - rewrite mul_zero_l by apply finite_zero. apply sub_zero_r. }
  eexists. split; [exact (Htable y1 c1 Hwf1 Hc1 Hfin1)|].
  split; [exact (Htable y2 c2 Hwf2 Hc2 Hfin2) | reflexivity].
Qed.

End ObjectiveWeights.

Section ObjectiveExamples.
Import FeatureSelection Instances.
#[local] Existing Instance signed_square_correlation.

Lemma fq_float_like : @FloatLike fq fq_scalar fq_non_numbers.
Proof.
  split.
  - intros Hfin. now apply Hfin.
  - discriminate.
  - intros [x|]; [|reflexivity]. cbn. apply f_equal. ring.
  - intros [x|]; [|reflexivity]. cbn. apply f_equal. ring.
  - cbn. apply f_equal. ring.
  - intros [x|]; [|reflexivity]. cbn. apply f_equal. ring.
  - intros [x|]; [|reflexivity]. cbn. apply f_equal. ring.
  - intros [x|] Hfin; [|now contradiction Hfin]. cbn. apply f_equal. ring.
  - intros [x|] Hfin; [|now contradiction Hfin]. cbn. apply f_equal. ring.
  - intros [x|] Hfin; [discriminate | now contradiction Hfin].
  - reflexivity.
  - reflexivity.
  - reflexivity.
  - now intros [x|].
  - reflexivity.
  - now intros [x|].
Qed.

Lemma line_features_well_formed (y : vector fq) :
  length y = 3 -> well_formed_data line_features y.
Proof. intros Hy. repeat split; cbn; try lia. repeat constructor. Qed.

Lemma square_features_well_formed (y : vector fq) :
  length y = 3 -> well_formed_data square_features y.
Proof. intros Hy. repeat split; cbn; try lia. repeat constructor. Qed.

Lemma line_features_accepted : accepted_shape line_features.
Proof. now left. Qed.

Lemma square_features_accepted : accepted_shape square_features.
Proof. now right. Qed.

Lemma diagonal_keeps_self_correlation_witness :
  well_formed_data line_features sample_response /\
  corrcoef line_features sample_response
  = Ok (correlations line_features sample_response) /\
  finite (entry (correlations line_features sample_response) 1 0) /\
  exists M,
    objective_matrix line_features sample_response zero = Ok M /\
    entry M 0 0
    = fabs (entry (correlations line_features sample_response) 0 0).
Proof.
  pose proof (line_features_well_formed sample_response eq_refl) as Hwf.
  pose proof (corrcoef_accepted Hwf line_features_accepted) as Hc.
  assert (Hfin : finite (entry (correlations line_features sample_response)
                               1 0)).
  { intros Hnan. vm_compute in Hnan. discriminate Hnan. }
  split; [exact Hwf|]. split; [exact Hc|]. split; [exact Hfin|].
  destruct (@diagonal_keeps_self_correlation fq _ _ fq_float_like _
              line_features sample_response _ 0 Hwf Hc
              ltac:(cbn; lia)) as (M & HM & Hdiag & _).
  exists M. split; [exact HM | exact (Hdiag Hfin)].
Defined.

(** C3 as stated fails: one feature observed at 0, 1 and 3 and the
    constant response (5, 5, 5) are data that [corrcoef] takes; the
    correlation of a constant sample is not a number, and with
    [alpha = 0] the only diagonal entry of the objective matrix is
    [|c| - 0 * nan], not a number and not 1. *)
Lemma diagonal_not_one_for_constant_response :
  well_formed_data line_features flat_response /\
  exists M,
    objective_matrix line_features flat_response zero = Ok M /\
    entry M 0 0 = nan /\
    entry M 0 0 <> one.
Proof.
  split; [now apply line_features_well_formed|].
  exists [[nan]]. split; [vm_compute; reflexivity|].
  split; [reflexivity | discriminate].
Qed.


Lemma alpha_zero_ignores_response_witness :
  well_formed_data square_features sample_response /\
  well_formed_data square_features other_response /\
  (forall i, i < 3 ->
     finite (entry (correlations square_features sample_response) 3 i)) /\
  (forall i, i < 3 ->
     finite (entry (correlations square_features other_response) 3 i)) /\
  exists M,
    objective_matrix square_features sample_response zero = Ok M /\
    objective_matrix square_features other_response zero = Ok M.
Proof.
  pose proof (square_features_well_formed sample_response eq_refl) as Hwf1.
  pose proof (square_features_well_formed other_response eq_refl) as Hwf2.
  pose proof (corrcoef_accepted Hwf1 square_features_accepted) as Hc1.
  pose proof (corrcoef_accepted Hwf2 square_features_accepted) as Hc2.
  assert (Hfin1 : forall i, i < 3 ->
            finite (entry (correlations square_features sample_response)
                          3 i)).
  { intros i Hi Hnan.
    destruct i as [|[|[|i]]]; [| | |lia];
      vm_compute in Hnan; discriminate Hnan. }
  assert (Hfin2 : forall i, i < 3 ->
            finite (entry (correlations square_features other_response)
                          3 i)).
  { intros i Hi Hnan.
    destruct i as [|[|[|i]]]; [| | |lia];
      vm_compute in Hnan; discriminate Hnan. }
  split; [exact Hwf1|]. split; [exact Hwf2|].
  split; [exact Hfin1|]. split; [exact Hfin2|].
  destruct (@alpha_zero_ignores_response fq _ _ fq_float_like _
              square_features sample_response other_response _ _
              Hwf1 Hwf2 Hc1 Hc2 Hfin1 Hfin2) as (M & HM1 & HM2 & _).
  exists M. split; [exact HM1 | exact HM2].
Defined.

(** C7 as stated fails: with [alpha = 0] and one feature observed at 0,
    1 and 3, the response (1, 2, 4) gives a matrix with a finite entry,
    and the constant response (5, 5, 5), whose correlation with the
    feature is not a number, gives a matrix whose entry is not a number:
    the two matrices differ. *)
Lemma constant_response_changes_matrix :
  well_formed_data line_features sample_response /\
  well_formed_data line_features flat_response /\
  (exists v, objective_matrix line_features sample_response zero
             = Ok [[Some v]]) /\
  objective_matrix line_features flat_response zero = Ok [[nan]] /\
  objective_matrix line_features sample_response zero
  <> objective_matrix line_features flat_response zero.
Proof.
  split; [now apply line_features_well_formed|].
  split; [now apply line_features_well_formed|].
  assert (Hsample : exists v,
             objective_matrix line_features sample_response zero
             = Ok [[Some v]]).
  { eexists. vm_compute. reflexivity. }
  assert (Hflat : objective_matrix line_features flat_response zero
                  = Ok [[nan]]) by (vm_compute; reflexivity).
  split; [exact Hsample|]. split; [exact Hflat|].
  destruct Hsample as [v Hv]. rewrite Hv, Hflat. discriminate.
Qed.

End ObjectiveExamples.


(* ================================================================== *)
(** ** The ansatz *)

Lemma raises_bind {A B} (r : result A) (k : A -> result B) :
  raises r -> raises (bind r k).
Proof. intros [e ->]. now exists e. Qed.

Lemma mapM_all_ok {A B} (f : A -> result B) (g : A -> B) (xs : list A) :
  (forall x, In x xs -> f x = Ok (g x)) -> mapM f xs = Ok (map g xs).
Proof.
  induction xs as [|x xs IH]; intros Hall; [reflexivity|].
  cbn [mapM map]. rewrite (Hall x (or_introl eq_refl)). cbn [bind].
  rewrite IH by (intros; apply Hall; now right). reflexivity.
Qed.

Section AnsatzClaims.
Import FeatureSelection.
Context {F : Type} `{Scalar F} `{AnsatzLib F}.
Variables (n_var n_layers trotter_steps : nat).

Lemma rows_of_length (c r : nat) (v : vector F) :
  length (rows_of c r v) = r.
Proof.
  revert v. induction r as [|r IH]; intros v; [reflexivity|].
  cbn [rows_of length]. now rewrite IH.
Qed.

Lemma reshape_times_short (params : vector F) :
  length params < 2 * n_layers ->
  reshape (firstn (2 * n_layers) params) n_layers 2 = Raise ShapeError.
Proof.
  intros Hshort. unfold reshape. rewrite length_firstn.
  destruct (Nat.eqb_spec (Nat.min (2 * n_layers) (length params))
                         (n_layers * 2)); [lia | reflexivity].
Qed.

Lemma reshape_times_long (params : vector F) :
  2 * n_layers <= length params ->
  reshape (firstn (2 * n_layers) params) n_layers 2
  = Ok (rows_of 2 n_layers (firstn (2 * n_layers) params)).
Proof.
  intros Hlong. unfold reshape. rewrite length_firstn.
  destruct (Nat.eqb_spec (Nat.min (2 * n_layers) (length params))
                         (n_layers * 2)); [reflexivity | lia].
Qed.

Lemma layer_raises (times : matrix F) (params : vector F) :
  1 <= n_layers ->
  raises (hamiltonian_ansatz params "z" "z" n_var) ->
  raises (layer (qaoa_layer n_var trotter_steps) n_layers times params).
Proof.
  intros Hpos [e He]. unfold layer.
  destruct (length times =? n_layers); [|now exists LibraryError].
  destruct n_layers as [|l]; [lia|].
  cbn [seq mapM]. unfold qaoa_layer at 1. rewrite He. cbn [bind].
  now exists e.
Qed.

Lemma layer_returns (times : matrix F) (params : vector F)
    (problem : Hamiltonian F) :
  length times = n_layers ->
  hamiltonian_ansatz params "z" "z" n_var = Ok problem ->
  is_ok (layer (qaoa_layer n_var trotter_steps) n_layers times params)
  = true.
Proof.
  intros Hlen Hok. unfold layer. rewrite Hlen, Nat.eqb_refl.
  rewrite (@mapM_all_ok _ _ _
             (fun i => [ApproxTimeEvolution problem
                          (item (nth i times []) 0) trotter_steps;
                        CommutingEvolution (x_hamiltonian n_var)
                          (item (nth i times []) 1)])).
  - reflexivity.
  - intros i _. unfold qaoa_layer. now rewrite Hok.
Qed.

(** C5, amended: the reported parameter count is [2L + 2k - 1].  The
    circuit procedure raises on every vector with fewer than [2L]
    entries.  On a vector with at least [2L] entries and [L >= 1] it
    raises exactly when [hamiltonian_ansatz] raises on the entries after
    the first [2L]; with [L = 0] it returns on every vector. *)
Theorem ansatz_parameter_contract (params : vector F) :
  fst (feature_selection_ansatz n_var n_layers trotter_steps)
  = (2 * Z.of_nat n_layers + 2 * Z.of_nat n_var - 1)%Z /\
  (length params < 2 * n_layers ->
   raises (snd (feature_selection_ansatz n_var n_layers trotter_steps)
               params)) /\
  (2 * n_layers <= length params -> 1 <= n_layers ->
   (raises (snd (feature_selection_ansatz n_var n_layers trotter_steps)
                params)
    <-> raises (hamiltonian_ansatz (skipn (2 * n_layers) params)
                  "z" "z" n_var))) /\
  (n_layers = 0 ->
   is_ok (snd (feature_selection_ansatz n_var n_layers trotter_steps)
              params) = true).
Proof.
  cbn [fst snd feature_selection_ansatz]. split; [reflexivity|].
  split; [|split].
  - intros Hshort. unfold state_circuit.
    rewrite reshape_times_short by exact Hshort. now exists ShapeError.
  - intros Hlong Hpos. unfold state_circuit.
    rewrite reshape_times_long by exact Hlong. cbn [bind].
    set (times := rows_of 2 n_layers (firstn (2 * n_layers) params)).
    set (rest := skipn (2 * n_layers) params).
    split.
    + intros Hraise.
      destruct (hamiltonian_ansatz rest "z" "z" n_var) as [problem|e] eqn:Hh;
        [|now exists e].
      pose proof (@layer_returns times rest problem
                    (rows_of_length 2 n_layers _) Hh) as Hret.
      destruct Hraise as [e He].
      destruct (layer (qaoa_layer n_var trotter_steps) n_layers times rest);
        cbn [bind] in He; discriminate.
    + intros Hraise. apply raises_bind. now apply layer_raises.
  - intros Hzero. unfold state_circuit, reshape, layer. rewrite Hzero.
    cbn [Nat.mul firstn length Nat.eqb rows_of bind seq mapM concat].
    reflexivity.
Qed.

End AnsatzClaims.

Section AnsatzExamples.
Import FeatureSelection Instances.

(** C5 as stated fails without layers: for one variable the reported
    count is 1, and the circuit procedure returns on a vector of three
    parameters, whatever [hamiltonian_ansatz] would do with them. *)
Lemma ansatz_accepts_other_length :
  fst (@feature_selection_ansatz Qc Qc_scalar rejecting_ansatz 1 0 5) = 1%Z /\
  length [qc 1; qc 2; qc 3] = 3 /\
  snd (@feature_selection_ansatz Qc Qc_scalar rejecting_ansatz 1 0 5)
      [qc 1; qc 2; qc 3]
  = Ok [Gate (PauliX 0); Hadamard 0].
Proof. repeat split. Qed.

Lemma ansatz_parameter_contract_witness :
  length [qc 1; qc 2; qc 3] < 2 * 2 /\
  raises (snd (@feature_selection_ansatz Qc Qc_scalar strict_ansatz 2 2 5)
              [qc 1; qc 2; qc 3]).
Proof.
  split; [simpl; lia|].
  apply (proj1 (proj2
    (@ansatz_parameter_contract Qc Qc_scalar strict_ansatz 2 2 5
       [qc 1; qc 2; qc 3]))).
  simpl. lia.
Defined.

End AnsatzExamples.

(* ================================================================== *)
(** ** [FeatureSelectionProblem.sample_hamiltonian] *)

Section ProblemClaims.
Import FeatureSelection Utils.
Context {F : Type} `{Scalar F} `{Correlation F} `{Pennylane F}.
Context {Key : Type} `{Random Key}.

Lemma sample_hamiltonian_unfold (self : FeatureSelectionProblem) :
  sample_hamiltonian self
  = (set_key self (fst (split (key self))),
     hamiltonian_drawn (feature_data self) (response_data self)
       (n self) (alpha self) (snd (split (key self)))).
Proof.
  unfold sample_hamiltonian, hamiltonian_drawn.
  destruct (split (key self)) as [kept used]. cbn [fst snd].
  change (feature_data (set_key self kept)) with (feature_data self).
  change (response_data (set_key self kept)) with (response_data self).
  change (n (set_key self kept)) with (n self).
  change (alpha (set_key self kept)) with (alpha self).
  now destruct (resample_data (feature_data self) (response_data self)
                  (n self) used).
Qed.

(** C10: a call of [sample_hamiltonian] leaves an instance that differs
    from the one it was called on in [key] alone, which becomes the first
    half of the split.  The outcome of the call, returned or raised,
    plays no part. *)
Theorem sample_hamiltonian_frame (self : FeatureSelectionProblem) :
  let after := fst (sample_hamiltonian self) in
  feature_data after = feature_data self /\
  response_data after = response_data self /\
  alpha after = alpha self /\
  n after = n self /\
  k after = k self /\
  key after = fst (split (key self)).
Proof.
  rewrite sample_hamiltonian_unfold. cbn. repeat split.
Qed.

Lemma later_key_shift (initial : Key) (calls : nat) :
  later_key (fst (split initial)) calls
  = later_key initial (S calls).
Proof.
  induction calls as [|calls IH]; [reflexivity|].
  cbn [later_key] in *. now rewrite IH.
Qed.

Lemma sample_many_unfold (calls : nat) :
  forall self,
    sample_many calls self
    = (set_key self (later_key (key self) calls),
       map (fun i =>
              hamiltonian_drawn (feature_data self) (response_data self)
                (n self) (alpha self)
                (snd (split (later_key (key self) i))))
           (seq 0 calls)).
Proof.
  induction calls as [|calls IH]; intros self.
  - cbn. now destruct self.
  - cbn [sample_many]. rewrite sample_hamiltonian_unfold, IH.
    cbn [set_key key feature_data response_data n alpha k seq map].
    rewrite <- seq_shift, map_map. f_equal.
    + unfold set_key. cbn [key feature_data response_data alpha n k].
      now rewrite later_key_shift.
    + cbn [later_key]. f_equal. apply map_ext. intros i.
      now rewrite later_key_shift.
Qed.

(** C4, amended: the outcomes of successive calls are determined by the
    feature data, the response, [alpha], [n] and the key the instance
    holds.  Call number [i] (from 0) resamples with the second half of
    the split of the key reached after [i] splits, and returns or raises
    what [qubo_hamiltonian] does on the objective matrix of the resampled
    data.  Two instances that hold the same data, [alpha], [n] and key
    give the same outcomes in the same order, and hold the same key
    afterwards. *)
Theorem sample_many_reproducible
    (first second : FeatureSelectionProblem) (calls : nat) :
  feature_data first = feature_data second ->
  response_data first = response_data second ->
  alpha first = alpha second ->
  n first = n second ->
  key first = key second ->
  snd (sample_many calls first) = snd (sample_many calls second) /\
  key (fst (sample_many calls first))
  = key (fst (sample_many calls second)) /\
  snd (sample_many calls first)
  = map (fun i =>
           hamiltonian_drawn (feature_data first) (response_data first)
             (n first) (alpha first)
             (snd (split (later_key (key first) i))))
        (seq 0 calls).
Proof.
  intros Hfeatures Hresponse Halpha Hn Hkey.
  rewrite !sample_many_unfold. cbn [fst snd].
  unfold set_key. cbn [key].
  now rewrite Hfeatures, Hresponse, Halpha, Hn, Hkey.
Qed.

(** rows drawn from data whose rows are all equal are those rows again *)
Lemma resample_constant_data (row : vector F) (v : F) (size : nat)
    (used : Key) :
  length (choice used size size) = size ->
  Forall (fun i => i < size) (choice used size size) ->
  resample_data (repeat row size) (repeat v size) size used
  = (repeat row size, repeat v size).
Proof.
  intros Hlen Hrange. unfold resample_data. rewrite repeat_length.
  revert Hlen Hrange. generalize (choice used size size) as idx.
  intros idx Hlen Hrange.
  assert (Hrows : forall (A : Type) (x d : A),
             map (fun i => nth i (repeat x size) d) idx
             = repeat x (length idx)).
  { intros A x d. clear Hlen.
    induction Hrange as [|i idx Hi _ IH]; [reflexivity|].
    cbn [map length repeat]. rewrite IH. f_equal.
    apply nth_repeat_lt. exact Hi. }
  unfold item. now rewrite !Hrows, Hlen.
Qed.

End ProblemClaims.

Section ProblemExamples.
Import FeatureSelection Utils Instances.
#[local] Existing Instance signed_square_correlation.
#[local] Existing Instance keep_all_terms.
#[local] Existing Instance lcg_random.

Lemma sample_problem_init :
  init square_features sample_response quarter 7%Z = Ok sample_problem.
Proof. reflexivity. Qed.

Lemma constant_problem_init :
  init (repeat [fq_of 1] 2) (repeat (fq_of 3) 2) quarter 7%Z
  = Ok constant_problem.
Proof. reflexivity. Qed.

Lemma sample_many_reproducible_witness :
  init square_features sample_response quarter 7%Z = Ok sample_problem /\
  snd (sample_many 3 sample_problem)
  = map (fun i =>
           hamiltonian_drawn square_features sample_response 3 quarter
             (snd (split (later_key 7%Z i))))
        (seq 0 3).
Proof.
  split; [exact sample_problem_init|].
  exact (proj2 (proj2
    (@sample_many_reproducible fq _ _ _ Z _
       sample_problem sample_problem 3
       eq_refl eq_refl eq_refl eq_refl eq_refl))).
Defined.

(** C4 as stated fails: [constant_problem] holds [N = 2] observations of
    one feature, all equal, and a constant response.  Two successive
    calls resample with different keys; whatever rows they draw, the
    resampled arrays are the arrays of the instance, and both calls
    return the same Hamiltonian, one [PauliZ 0] term whose coefficient
    is not a number. *)
Lemma successive_calls_same_hamiltonian :
  init (repeat [fq_of 1] 2) (repeat (fq_of 3) 2) quarter 7%Z
  = Ok constant_problem /\
  1 < n constant_problem /\
  snd (split (key constant_problem))
  <> snd (split (key (fst (sample_hamiltonian constant_problem)))) /\
  snd (sample_hamiltonian constant_problem)
  = Ok (mkHamiltonian [nan] [PauliZ 0]) /\
  snd (sample_hamiltonian (fst (sample_hamiltonian constant_problem)))
  = Ok (mkHamiltonian [nan] [PauliZ 0]).
Proof.
  split; [exact constant_problem_init|].
  split; [cbn; lia|].
  split; [vm_compute; discriminate|].
  rewrite !sample_hamiltonian_unfold. cbn [fst snd].
  unfold hamiltonian_drawn.
  change (feature_data (set_key constant_problem _))
    with (repeat [fq_of 1] 2).
  change (response_data (set_key constant_problem _))
    with (repeat (fq_of 3) 2).
  change (n (set_key constant_problem _)) with 2.
  change (feature_data constant_problem) with (repeat [fq_of 1] 2).
  change (response_data constant_problem) with (repeat (fq_of 3) 2).
  change (n constant_problem) with 2.
  rewrite !resample_constant_data;
    try (vm_compute; reflexivity); vm_compute; repeat constructor.
Qed.

End ProblemExamples.

(* ================================================================== *)
(** ** The cumulative-shots axis *)

Section AxisClaims.
Import Runs.
Context `{JaxConfig}.
Hypothesis bits_positive : (0 < int_bits)%Z.

Lemma int_range : (int_min < 0 /\ 0 <= int_max /\
                   2 ^ int_bits = int_max - int_min + 1)%Z.
Proof.
  unfold int_min, int_max.
  assert (Hpow : (2 ^ int_bits = 2 * 2 ^ (int_bits - 1))%Z).
  { rewrite <- Z.pow_succ_r by lia. f_equal. lia. }
  assert (0 < 2 ^ (int_bits - 1))%Z by (apply Z.pow_pos_nonneg; lia).
  lia.
Qed.

Lemma wrap_in_range (z : Z) :
  (int_min <= z <= int_max)%Z -> wrap z = z.
Proof.
  intros Hz. unfold wrap. destruct int_range as (_ & _ & Hpow).
  rewrite Z.mod_small by lia. lia.
Qed.

Lemma total_nonneg (xs : list Z) :
  Forall (fun x => 0 < x)%Z xs -> (0 <= total xs)%Z.
Proof.
  induction 1 as [|x xs Hx _ IH]; cbn [total fold_right]; [lia|].
  fold (total xs). lia.
Qed.

Lemma cumsum_from_in_range (xs : list Z) :
  forall acc,
    (0 <= acc)%Z ->
    Forall (fun x => 0 < x)%Z xs ->
    (acc + total xs <= int_max)%Z ->
    length (cumsum_from acc xs) = length xs /\
    Sorted Z.le (cumsum_from acc xs) /\
    Forall (fun v => acc <= v)%Z (cumsum_from acc xs) /\
    last (cumsum_from acc xs) acc = (acc + total xs)%Z.
Proof.
  induction xs as [|x xs IH]; intros acc Hacc Hpos Hfit.
  - cbn. repeat split; [constructor | constructor | lia].
  - inversion Hpos as [|? ? Hx Hrest]; subst.
    cbn [total fold_right] in Hfit. fold (total xs) in Hfit.
    pose proof (total_nonneg Hrest) as Htot.
    destruct int_range as (Hmin & _ & _).
    cbn [cumsum_from]. rewrite wrap_in_range by lia.
    destruct (IH (acc + x)%Z) as (Hlen & Hsorted & Hall & Hlast);
      [lia | exact Hrest | lia |].
    repeat split.
    + cbn [length]. now rewrite Hlen.
    + constructor; [exact Hsorted|].
      destruct (cumsum_from (acc + x) xs) as [|v vs]; constructor.
      now inversion Hall.
    + constructor; [lia|].
      eapply Forall_impl; [|exact Hall]. cbn. intros; lia.
    + rewrite last_cons_default, Hlast.
      cbn [total fold_right]. fold (total xs). lia.
Qed.

Lemma shots_of_positive (spaces : list namespace) (products : list Z) :
  positive_shots spaces products ->
  mapM shots_of spaces = Ok products /\
  Forall (fun x => 0 < x)%Z products /\
  length products = length spaces.
Proof.
  induction 1 as [|i p spaces products Hi _ IH].
  - repeat split. constructor.
  - destruct Hi as (s & t & Hs & Ht & Hspos & Htpos & ->).
    destruct IH as (Hmap & Hpos & Hlen).
    cbn [mapM]. unfold shots_of at 1. rewrite Hs, Ht. cbn [bind py_mul].
    rewrite Hmap. cbn [bind]. repeat split.
    + constructor; [lia | exact Hpos].
    + cbn [length]. now rewrite Hlen.
Qed.

Lemma np_array_in_range (xs : list Z) :
  Forall (fun x => 0 < x)%Z xs -> (total xs <= int_max)%Z ->
  np_array xs = Ok xs.
Proof.
  intros Hpos Hfit. unfold np_array.
  enough (forallb (fun x => (int_min <=? x)%Z && (x <=? int_max)%Z) xs
          = true) as -> by reflexivity.
  destruct int_range as (Hmin & _ & _).
  induction Hpos as [|x xs Hx Hrest IH]; [reflexivity|].
  cbn [total fold_right] in Hfit. fold (total xs) in Hfit.
  pose proof (total_nonneg Hrest). cbn [forallb].
  rewrite IH by lia.
  destruct (Z.leb_spec int_min x), (Z.leb_spec x int_max); cbn; lia.
Qed.

(** C8, amended: when all iterations have positive integer [samples] and
    [shots_per_hamiltonians] and the sum over all iterations of their
    products does not exceed the largest integer of the array type,
    [get_x_axis('shots')] returns one value per iteration, in
    non-decreasing order, and the last value is that sum. *)
Theorem shots_axis_cumulative (self : ExperimentRun)
    (spaces : list namespace) (products : list Z) :
  iterations self = Some spaces ->
  positive_shots spaces products ->
  (total products <= int_max)%Z ->
  exists axis,
    get_x_axis self "shots" = Ok axis /\
    length axis = length spaces /\
    Sorted Z.le axis /\
    last axis 0%Z = total products.
Proof.
  intros Hit Hshots Hfit.
  destruct (shots_of_positive Hshots) as (Hmap & Hpos & Hlen).
  destruct (@cumsum_from_in_range products 0%Z) as (Hl & Hs & _ & Hlast);
    [lia | exact Hpos | lia |].
  exists (cumsum products). split.
  - unfold get_x_axis, get_iterations. cbn [String.eqb Ascii.eqb Bool.eqb].
    rewrite Hit. cbn [bind]. rewrite Hmap. cbn [bind].
    now rewrite (np_array_in_range Hpos Hfit).
  - unfold cumsum. rewrite Hl, Hlen, Hlast. repeat split. exact Hs.
Qed.

End AxisClaims.

Section AxisExamples.
Import Runs Instances.

Lemma run_with_positive (samples shots : Z) :
  (0 < samples)%Z -> (0 < shots)%Z ->
  positive_shots [iteration_with samples shots; iteration_with samples shots]
                 [(samples * shots)%Z; (samples * shots)%Z].
Proof.
  intros Hs Ht.
  repeat constructor; exists samples, shots; repeat split; assumption.
Qed.

Lemma shots_axis_cumulative_witness :
  (0 < @int_bits jax_default)%Z /\
  positive_shots [iteration_with 1024%Z 100%Z; iteration_with 1024%Z 100%Z]
                 [102400%Z; 102400%Z] /\
  (total [102400%Z; 102400%Z] <= @int_max jax_default)%Z /\
  exists axis,
    @get_x_axis jax_default (run_with 1024%Z 100%Z) "shots" = Ok axis /\
    length axis = 2 /\ Sorted Z.le axis /\ last axis 0%Z = 204800%Z.
Proof.
  assert (Hbits : (0 < @int_bits jax_default)%Z) by reflexivity.
  assert (Hfit : (total [102400%Z; 102400%Z] <= @int_max jax_default)%Z)
    by (vm_compute; discriminate).
  split; [exact Hbits|].
  split; [apply (@run_with_positive 1024%Z 100%Z); reflexivity|].
  split; [exact Hfit|].
  exact (@shots_axis_cumulative jax_default Hbits (run_with 1024%Z 100%Z)
           [iteration_with 1024%Z 100%Z; iteration_with 1024%Z 100%Z]
           [102400%Z; 102400%Z] eq_refl
           (@run_with_positive 1024%Z 100%Z eq_refl eq_refl) Hfit).
Defined.

(** C8 as stated fails when the running sum leaves the range of the
    array type.  With 32-bit integers, two iterations of 1024 samples and
    1048576 shots give the axis [2^30, -2^31]; with 64-bit integers, two
    iterations of 2^31 samples and 2^31 shots give [2^62, -2^63].  Both
    decrease, and their last value is not the sum of the products. *)
Lemma shots_axis_wraps :
  (positive_shots [iteration_with 1024%Z 1048576%Z;
                   iteration_with 1024%Z 1048576%Z]
                  [1073741824%Z; 1073741824%Z] /\
   @get_x_axis jax_default (run_with 1024%Z 1048576%Z) "shots"
   = Ok [1073741824%Z; (-2147483648)%Z] /\
   ~ Sorted Z.le [1073741824%Z; (-2147483648)%Z] /\
   total [1073741824%Z; 1073741824%Z] = 2147483648%Z) /\
  (positive_shots [iteration_with 2147483648%Z 2147483648%Z;
                   iteration_with 2147483648%Z 2147483648%Z]
                  [4611686018427387904%Z; 4611686018427387904%Z] /\
   @get_x_axis jax_x64 (run_with 2147483648%Z 2147483648%Z) "shots"
   = Ok [4611686018427387904%Z; (-9223372036854775808)%Z] /\
   ~ Sorted Z.le [4611686018427387904%Z; (-9223372036854775808)%Z] /\
   total [4611686018427387904%Z; 4611686018427387904%Z]
   = 9223372036854775808%Z).
Proof.
  split; (split; [apply run_with_positive; reflexivity|]);
    (split; [vm_compute; reflexivity|]);
    (split; [|reflexivity]);
    intros Hsorted; inversion Hsorted as [|? ? _ Hhd];
    inversion Hhd as [|? ? Hle]; vm_compute in Hle; now apply Hle.
Qed.

End AxisExamples.

(* ================================================================== *)
(** ** Loading a run log *)

Lemma mapM_ok_Forall2 {A B} (f : A -> result B) (xs : list A) (ys : list B) :
  mapM f xs = Ok ys -> Forall2 (fun x y => f x = Ok y) xs ys.
Proof.
  revert ys. induction xs as [|x xs IH]; intros ys Hmap.
  - inversion Hmap. constructor.
  - cbn [mapM] in Hmap. destruct (f x) as [y|e] eqn:Hx; [|discriminate].
    cbn [bind] in Hmap.
    destruct (mapM f xs) as [ys'|e]; [|discriminate].
    inversion Hmap. constructor; [exact Hx | now apply IH].
Qed.

Lemma mapM_raises_in {A B} (f : A -> result B) (xs : list A) (x : A) :
  In x xs -> raises (f x) -> raises (mapM f xs).
Proof.
  intros Hin Hx. induction xs as [|x' xs IH]; [contradiction|].
  cbn [mapM]. destruct Hin as [->|Hin].
  - now apply raises_bind.
  - destruct (f x') as [y|e]; [|now exists e]. cbn [bind].
    apply raises_bind. now apply IH.
Qed.

Section InitClaims.
Import Runs.
Context `{Ast}.

Lemma getattr_setattr (obj : namespace) (name : string) (v : value) :
  getattr (setattr obj name v) name = Ok v.
Proof.
  induction obj as [|[a w] obj IH]; cbn [setattr getattr].
  - now rewrite String.eqb_refl.
  - destruct (String.eqb a name) eqn:Ha; cbn [getattr]; now rewrite Ha.
Qed.

Lemma decode_params_decoded (before after : namespace) :
  decode_params before = Ok after -> decoded_from before after.
Proof.
  unfold decode_params, decoded_from.
  destruct (getattr before "params") as [params|e]; [|discriminate].
  cbn [bind].
  destruct params; try (intros E; inversion E; reflexivity).
  destruct (literal_eval s) as [v|e] eqn:Hv; [|discriminate].
  cbn [bind]. intros E. inversion E. exists v.
  repeat split. apply getattr_setattr.
Qed.

Lemma decode_params_raises (it : namespace) (text : string) (e : error) :
  getattr it "params" = Ok (VStr text) ->
  literal_eval text = Raise e ->
  decode_params it = Raise e.
Proof.
  intros Hp He. unfold decode_params. rewrite Hp. cbn [bind].
  now rewrite He.
Qed.

(** C9: [__init__] hands every [params] string to [literal_eval] and to
    nothing else.  When it returns, each iteration with a [params] string
    holds the decoded literal instead; when [literal_eval] raises on the
    string of some iteration, [__init__] raises.  With [literal_eval]
    reading ["[1.0, 2.0]"] as the list of 1.0 and 2.0, that list is what
    the loaded iteration holds; with [literal_eval] raising a decode
    error on ["abc"], [__init__] raises that decode error. *)
Theorem init_decodes_params :
  (forall data loaded raw run,
     fold_left init_setattr data (Ok (mkRun None [])) = Ok loaded ->
     iterations loaded = Some raw ->
     init data = Ok run ->
     exists decoded,
       iterations run = Some decoded /\ Forall2 decoded_from raw decoded) /\
  (forall data loaded raw it text e,
     fold_left init_setattr data (Ok (mkRun None [])) = Ok loaded ->
     iterations loaded = Some raw ->
     In it raw ->
     getattr it "params" = Ok (VStr text) ->
     literal_eval text = Raise e ->
     raises (init data)) /\
  (literal_eval "[1.0, 2.0]" = Ok (VList [VFloat (1 # 1); VFloat (2 # 1)]) ->
   exists run it,
     init (log_with_params (VStr "[1.0, 2.0]")) = Ok run /\
     iterations run = Some [it] /\
     getattr it "params" = Ok (VList [VFloat (1 # 1); VFloat (2 # 1)])) /\
  (literal_eval "abc" = Raise DecodeError ->
   init (log_with_params (VStr "abc")) = Raise DecodeError).
Proof.
  split; [|split; [|split]].
  - intros data loaded raw run Hload Hraw Hinit.
    unfold init, get_iterations in Hinit.
    rewrite Hload in Hinit. cbn [bind] in Hinit.
    rewrite Hraw in Hinit. cbn [bind] in Hinit.
    destruct (mapM decode_params raw) as [decoded|e] eqn:Hmap;
      [|discriminate].
    inversion Hinit. exists decoded. split; [reflexivity|].
    apply mapM_ok_Forall2 in Hmap.
    eapply Forall2_impl; [|exact Hmap].
    intros before after. apply decode_params_decoded.
  - intros data loaded raw it text e Hload Hraw Hin Hp He.
    unfold init, get_iterations. rewrite Hload. cbn [bind].
    rewrite Hraw. cbn [bind].
    apply raises_bind. apply mapM_raises_in with it; [exact Hin|].
    exists e. now apply decode_params_raises with text.
  - intros Hlit. unfold init, log_with_params.
    cbn -[literal_eval]. rewrite Hlit. cbn.
    eexists. eexists. repeat split.
  - intros Hlit. unfold init, log_with_params.
    cbn -[literal_eval]. rewrite Hlit. reflexivity.
Qed.

End InitClaims.

Section InitExamples.
Import Runs Instances.

Lemma init_decodes_params_witness :
  read_literal "[1.0, 2.0]"%string
  = Ok (VList [VFloat (1 # 1); VFloat (2 # 1)]) /\
  read_literal "abc"%string = Raise DecodeError /\
  (exists run it,
     @init read_literal (log_with_params (VStr "[1.0, 2.0]")) = Ok run /\
     iterations run = Some [it] /\
     getattr it "params" = Ok (VList [VFloat (1 # 1); VFloat (2 # 1)])) /\
  @init read_literal (log_with_params (VStr "abc")) = Raise DecodeError.
Proof.
  assert (Hpair : read_literal "[1.0, 2.0]"%string
                  = Ok (VList [VFloat (1 # 1); VFloat (2 # 1)]))
    by (vm_compute; reflexivity).
  assert (Hbad : read_literal "abc"%string = Raise DecodeError)
    by (vm_compute; reflexivity).
  split; [exact Hpair|]. split; [exact Hbad|].
  split.
  - exact (proj1 (proj2 (proj2 (@init_decodes_params read_literal))) Hpair).
  - exact (proj2 (proj2 (proj2 (@init_decodes_params read_literal))) Hbad).
Defined.

End InitExamples.

(* ================================================================== *)
(** ** Further properties of the QUBO loops *)

Lemma visit_term_quadratic (v : nat * nat) (m c : nat) :
  visit_term v = Tensor (PauliZ m) (PauliZ c) -> v = (m, c) /\ m <> c.
Proof.
  destruct v as [a b]. unfold visit_term. cbn [fst snd].
  destruct (Nat.eqb_spec a b); cbn [negb]; [discriminate|].
  intros E. inversion E. subst. now split.
Qed.

Lemma count_below (bound len : nat) :
  length (filter (fun m => m <? bound) (seq 0 len)) = Nat.min len bound.
Proof.
  induction len as [|len IH]; [reflexivity|].
  rewrite seq_S, filter_app, length_app, IH. cbn [plus filter].
  destruct (Nat.ltb_spec len bound); cbn [length]; lia.
Qed.

Lemma linear_count_rows (g : nat -> nat) (l : list nat) :
  length (filter FeatureSelection.is_linear
            (map visit_term (flat_map (fun m => map (pair m) (seq 0 (g m))) l)))
  = length (filter (fun m => m <? g m) l).
Proof.
  induction l as [|m l IH]; [reflexivity|].
  cbn [flat_map filter].
  rewrite map_app, filter_app, length_app, linear_in_row, IH.
  cbn [Nat.leb andb plus].
  destruct (m <? g m); reflexivity.
Qed.

Section QuboTerms.
Import FeatureSelection.
Context {F : Type} `{Scalar F}.

(** X1: which terms the loops of [qubo_hamiltonian] build.  The linear
    term of variable [m] is built exactly when [2 * m] is below the
    number of rows; the product term of [m] and [c] exactly when the two
    differ and [m + c] is below the number of rows. *)
Theorem qubo_emitted_terms (objective : matrix F) (m c : nat) :
  (In (PauliZ m) (ops (qubo_unsimplified objective))
   <-> 2 * m < nrows objective) /\
  (In (Tensor (PauliZ m) (PauliZ c)) (ops (qubo_unsimplified objective))
   <-> m <> c /\ m + c < nrows objective).
Proof.
  rewrite qubo_unsimplified_visits. cbn [ops]. split; split.
  - intros Hin. apply in_map_iff in Hin. destruct Hin as (v & Hv & Hin).
    apply visit_term_linear in Hv. subst v.
    apply in_qubo_visits in Hin. lia.
  - intros Hm. apply in_map_iff. exists (m, m). split.
    + unfold visit_term. cbn [fst snd]. now rewrite Nat.eqb_refl.
    + apply in_qubo_visits. lia.
  - intros Hin. apply in_map_iff in Hin. destruct Hin as (v & Hv & Hin).
    apply visit_term_quadratic in Hv. destruct Hv as [-> Hne].
    apply in_qubo_visits in Hin. split; [exact Hne | lia].
  - intros [Hne Hsum]. apply in_map_iff. exists (m, c). split.
    + unfold visit_term. cbn [fst snd].
      now destruct (Nat.eqb_spec m c).
    + apply in_qubo_visits. lia.
Qed.

(** X2: how many terms the loops build on a matrix with [n] rows:
    [n * (n + 1) / 2] in all, of which [(n + 1) / 2], rounded down, are
    linear, with one coefficient per term.  All [n] linear terms are
    there only for [n <= 1]. *)
Theorem qubo_term_counts (objective : matrix F) :
  length (coeffs (qubo_unsimplified objective))
  = length (ops (qubo_unsimplified objective)) /\
  2 * length (ops (qubo_unsimplified objective))
  = nrows objective * (nrows objective + 1) /\
  length (filter is_linear (ops (qubo_unsimplified objective)))
  = (nrows objective + 1) / 2 /\
  (length (filter is_linear (ops (qubo_unsimplified objective)))
   = nrows objective <-> nrows objective <= 1).
Proof.
  rewrite qubo_unsimplified_visits. cbn [coeffs ops].
  set (size := nrows objective).
  assert (Hlinear : length (filter is_linear
                              (map visit_term (qubo_visits size)))
                    = (size + 1) / 2).
  { unfold qubo_visits.
    rewrite (linear_count_rows (fun m => size - m)).
    rewrite (filter_ext_in _ (fun m => m <? (size + 1) / 2)).
    - rewrite count_below.
      pose proof (Nat.div_mod_eq (size + 1) 2) as Hdiv.
      pose proof (Nat.mod_upper_bound (size + 1) 2). lia.
    - intros m _.
      pose proof (Nat.div_mod_eq (size + 1) 2) as Hdiv.
      pose proof (Nat.mod_upper_bound (size + 1) 2).
      destruct (Nat.ltb_spec m (size - m)),
               (Nat.ltb_spec m ((size + 1) / 2)); try reflexivity; lia. }
  rewrite !length_map, Hlinear.
  repeat split; try apply qubo_visits_count.
  - intros Hall.
    pose proof (Nat.div_mod_eq (size + 1) 2) as Hdiv.
    pose proof (Nat.mod_upper_bound (size + 1) 2). lia.
  - intros Hsmall.
    destruct size as [|[|size]]; [reflexivity | reflexivity | lia].
Qed.

Lemma entry_mdiv (objective : matrix F) (s : F) (m c : nat) :
  m < length objective -> c < length (nth m objective []) ->
  entry (mdiv objective s) m c = div (entry objective m c) s.
Proof.
  intros Hm Hc. unfold entry, mdiv.
  rewrite (@nth_map_in _ _ _ objective m [] []) by exact Hm.
  now rewrite (@nth_map_in _ _ _ (nth m objective []) c zero zero).
Qed.

(** X3: on a square objective matrix, every product term of variables
    [m] and [c] that the loops build carries [objective[m, c] / 4]; the
    two variables differ and [m + c] is below the size. *)
Theorem quadratic_coefficient_is_quarter_entry
    (size : nat) (objective : matrix F) (m c : nat) (x : F) :
  is_square size objective ->
  In (x, Tensor (PauliZ m) (PauliZ c))
     (weighted_terms (qubo_unsimplified objective)) ->
  x = div (entry objective m c) four /\ m <> c /\ m + c < size.
Proof.
  intros Hsq Hin. rewrite weighted_terms_visits in Hin.
  apply in_map_iff in Hin. destruct Hin as (v & Heq & Hin).
  inversion Heq as [[Hx Hv]]. clear Heq.
  apply visit_term_quadratic in Hv. destruct Hv as [-> Hne].
  replace (nrows objective) with size in Hin by (symmetry; apply Hsq).
  apply in_qubo_visits in Hin.
  split; [|split; [exact Hne | lia]].
  subst x. unfold visit_coeff. cbn [fst snd].
  destruct (Nat.eqb_spec m c); [contradiction|]. cbn [negb].
  apply entry_mdiv.
  - destruct Hsq as [Hlen _]. lia.
  - rewrite (@square_row_length _ size m objective Hsq) by lia. lia.
Qed.

End QuboTerms.

(* ================================================================== *)
(** ** Further properties of the objective matrix *)

Section ObjectiveShape.
Import FeatureSelection.
Context {F : Type} `{Scalar F} `{Correlation F} `{Pennylane F}.

(** X4: on [N >= 2] observations of [k >= 1] features,
    [objective_matrix] returns exactly when [k = 1] or [k = N]; on the
    other shapes [corrcoef] refuses the response beside the features
    with a [ValueError].  A matrix it returns has [k] rows of [k]
    entries, so [qubo_hamiltonian] does not refuse it: the call returns
    the simplified Hamiltonian of the loops. *)
Theorem objective_matrix_accepted
    (X : matrix F) (y : vector F) (alpha : F) :
  well_formed_data X y ->
  (accepted_shape X ->
   exists M,
     objective_matrix X y alpha = Ok M /\
     length M = ncols X /\
     rectangular (ncols X) M /\
     qubo_hamiltonian M = Ok (simplify (qubo_unsimplified M))) /\
  (~ accepted_shape X -> objective_matrix X y alpha = Raise ValueError).
Proof.
  intros Hwf. split.
  - intros Hshape. eexists.
    split; [apply (objective_matrix_table alpha Hwf Hshape)|].
    pose proof (table_square (objective_cell X y alpha) (ncols X)) as Hsq.
    split; [apply Hsq|]. split; [apply Hsq|].
    now apply qubo_hamiltonian_square with (ncols X).
  - intros Hshape. now apply objective_matrix_refused.
Qed.

(** X5: a matrix that [objective_matrix] returns is symmetric whenever
    the correlation coefficient of two feature columns does not depend
    on their order. *)
Theorem objective_matrix_symmetric
    (X : matrix F) (y : vector F) (alpha : F) (M : matrix F) (i j : nat) :
  well_formed_data X y ->
  objective_matrix X y alpha = Ok M ->
  (forall a b, a < ncols X -> b < ncols X ->
     pearson (column X a) (column X b) = pearson (column X b) (column X a)) ->
  i < ncols X -> j < ncols X ->
  entry M i j = entry M j i.
Proof.
  intros Hwf HM Hsym Hi Hj.
  destruct (objective_matrix_ok alpha Hwf HM) as [_ ->].
  rewrite !table_entry by assumption.
  unfold objective_cell. rewrite (Hsym i j Hi Hj), (Nat.eqb_sym j i).
  destruct (Nat.eqb_spec i j) as [->|]; reflexivity.
Qed.

End ObjectiveShape.

Section ObjectiveEntries.
Import FeatureSelection.
Context {F : Type} `{FloatLike F} `{Correlation F}.

(** X6: the entries of a matrix that [objective_matrix] returns, for any
    [alpha], in terms of the correlation matrix [c] of the [k] features
    and the response.  Diagonal entry [i] is
    [|c[i,i]| * (1 - alpha) - alpha * |c[k,i]|].  An off-diagonal entry
    [(i, j)] is [|c[i,j]| * (1 - alpha) - alpha * 0], the same for every
    response that [objective_matrix] takes, and [|c[i,j]| * (1 - alpha)]
    when [alpha] is finite. *)
Theorem objective_matrix_entries
    (X : matrix F) (y : vector F) (alpha : F) (c M : matrix F)
    (i j : nat) :
  well_formed_data X y ->
  corrcoef X y = Ok c ->
  objective_matrix X y alpha = Ok M ->
  i < ncols X -> j < ncols X ->
  entry M i i
  = sub (mul (fabs (entry c i i)) (sub one alpha))
        (mul alpha (fabs (entry c (ncols X) i))) /\
  (i <> j ->
   entry M i j
   = sub (mul (fabs (entry c i j)) (sub one alpha)) (mul alpha zero) /\
   (finite alpha ->
    entry M i j = mul (fabs (entry c i j)) (sub one alpha)) /\
   forall y' M',
     well_formed_data X y' ->
     objective_matrix X y' alpha = Ok M' ->
     entry M' i j = entry M i j).
Proof.
  intros Hwf Hc HM Hi Hj. split.
  - now rewrite (objective_matrix_entry alpha Hwf Hc HM Hi Hi), Nat.eqb_refl.
  - intros Hne.
    assert (Hcell : entry M i j
                    = sub (mul (fabs (entry c i j)) (sub one alpha))
                          (mul alpha zero)).
    { rewrite (objective_matrix_entry alpha Hwf Hc HM Hi Hj).
      now destruct (Nat.eqb_spec i j). }
    split; [exact Hcell|]. split.
    + intros Hfin. now rewrite Hcell, mul_zero_r, sub_zero_r.
    + intros y' M' Hwf' HM'.
      destruct (objective_matrix_ok alpha Hwf HM) as [_ ->].
      destruct (objective_matrix_ok alpha Hwf' HM') as [_ ->].
      rewrite !table_entry by assumption. unfold objective_cell.
      now destruct (Nat.eqb_spec i j).
Qed.

End ObjectiveEntries.

(* ================================================================== *)
(** ** Further properties of the ansatz *)

Section AnsatzLayout.
Import FeatureSelection.
Context {F : Type} `{Scalar F} `{AnsatzLib F}.
Variables (n_var n_layers trotter_steps : nat).

Lemma rows_of_pairs (r : nat) :
  forall (v : vector F) (i : nat),
    i < r -> 2 * r <= length v ->
    nth i (rows_of 2 r v) [] = [item v (2 * i); item v (2 * i + 1)].
Proof.
  induction r as [|r IH]; intros v i Hi Hlen; [lia|].
  cbn [rows_of].
  destruct v as [|a [|b v]]; cbn [length] in Hlen; try lia.
  destruct i as [|i]; [reflexivity|].
  cbn [nth firstn skipn]. rewrite IH by (cbn [length] in *; lia).
  unfold item.
  replace (2 * S i) with (S (S (2 * i))) by lia.
  replace (S (S (2 * i)) + 1) with (S (S (2 * i + 1))) by lia.
  reflexivity.
Qed.

Lemma item_firstn (v : vector F) (bound i : nat) :
  i < bound -> item (firstn bound v) i = item v i.
Proof.
  intros Hi. unfold item. rewrite nth_firstn.
  destruct (Nat.ltb_spec i bound); [reflexivity | lia].
Qed.

(** X7: the layout of the parameter vector.  On a vector with at least
    [2L] entries whose remaining entries [hamiltonian_ansatz] accepts,
    the circuit procedure queues [PauliX] and [Hadamard] on every wire
    and then, for each layer [i], the evolution under the problem
    Hamiltonian for the time [params[2i]] and the evolution under the
    mixer for the time [params[2i + 1]].  The problem Hamiltonian is
    built once from the entries after the first [2L] and is the same in
    every layer. *)
Theorem state_circuit_layout (params : vector F)
    (problem : Hamiltonian F) :
  2 * n_layers <= length params ->
  hamiltonian_ansatz (skipn (2 * n_layers) params) "z" "z" n_var
  = Ok problem ->
  snd (feature_selection_ansatz n_var n_layers trotter_steps) params
  = Ok (flat_map (fun wire => [Gate (PauliX wire); Hadamard wire])
                 (seq 0 n_var)
        ++ flat_map
             (fun i =>
                [ApproxTimeEvolution problem (item params (2 * i))
                   trotter_steps;
                 CommutingEvolution (x_hamiltonian n_var)
                   (item params (2 * i + 1))])
             (seq 0 n_layers)).
Proof.
  intros Hlong Hok. cbn [snd feature_selection_ansatz].
  unfold state_circuit.
  rewrite reshape_times_long by exact Hlong. cbn [bind].
  unfold layer. rewrite rows_of_length, Nat.eqb_refl.
  rewrite (@mapM_all_ok _ _ _
             (fun i =>
                [ApproxTimeEvolution problem (item params (2 * i))
                   trotter_steps;
                 CommutingEvolution (x_hamiltonian n_var)
                   (item params (2 * i + 1))])).
  - cbn [bind]. now rewrite !flat_map_concat_map.
  - intros i Hin. apply in_seq in Hin.
    unfold qaoa_layer. rewrite Hok. cbn [bind].
    rewrite rows_of_pairs
      by (rewrite ?length_firstn; lia).
    cbn [item nth]. fold (item (firstn (2 * n_layers) params) (2 * i)).
    fold (item (firstn (2 * n_layers) params) (2 * i + 1)).
    now rewrite !item_firstn by lia.
Qed.

End AnsatzLayout.

(* ================================================================== *)
(** ** Further properties of [FeatureSelectionProblem] *)

Section ProblemInvariant.
Import FeatureSelection.
Context {F : Type} `{Scalar F} `{Correlation F} `{Pennylane F}.
Context {Key : Type} `{Random Key}.

(** X8: any number of calls of [sample_hamiltonian] leaves the data,
    [alpha], [n] and [k] of an instance as they were, returns one
    outcome per call, and leaves the key reached by taking the first
    half of a split once per call. *)
Theorem sample_many_frame (calls : nat) (self : FeatureSelectionProblem) :
  let after := fst (sample_many calls self) in
  feature_data after = feature_data self /\
  response_data after = response_data self /\
  alpha after = alpha self /\
  n after = n self /\
  k after = k self /\
  key after = later_key (key self) calls /\
  length (snd (sample_many calls self)) = calls.
Proof.
  rewrite sample_many_unfold. cbn [fst snd].
  rewrite length_map, length_seq. cbn. repeat split.
Qed.

End ProblemInvariant.

(* ================================================================== *)
(** ** Further properties of loading a run log *)

Lemma mapM_raise_inv {A B} (f : A -> result B) (xs : list A) (e : error) :
  mapM f xs = Raise e -> exists x, In x xs /\ f x = Raise e.
Proof.
  induction xs as [|x xs IH]; [discriminate|].
  cbn [mapM]. destruct (f x) as [y|e'] eqn:Hx; cbn [bind].
  - destruct (mapM f xs) as [ys|e'] eqn:Hxs; [discriminate|].
    cbn [bind]. intros E. destruct IH as (x' & Hin & Hx'); [exact E|].
    exists x'. split; [now right | exact Hx'].
  - intros E. exists x. split; [now left | congruence].
Qed.

Lemma mapM_first_raise {A B} (f : A -> result B)
    (before : list A) (x : A) (after : list A) (done : list B) (e : error) :
  mapM f before = Ok done -> f x = Raise e ->
  mapM f (before ++ x :: after) = Raise e.
Proof.
  revert done. induction before as [|b before IH]; intros done Hdone Hx.
  - cbn [app mapM]. now rewrite Hx.
  - cbn [app mapM] in *. destruct (f b) as [y|e']; [|discriminate].
    cbn [bind] in *.
    destruct (mapM f before) as [ys|e'] eqn:Hb; [|discriminate].
    now rewrite (IH ys eq_refl Hx).
Qed.

Lemma mapM_length {A B} (f : A -> result B) (xs : list A) (ys : list B) :
  mapM f xs = Ok ys -> length ys = length xs.
Proof.
  intros Hmap. apply mapM_ok_Forall2 in Hmap.
  symmetry. eapply Forall2_length. exact Hmap.
Qed.

Section RunAttributes.
Import Runs.

Lemma getattr_missing (obj : namespace) (name : string) :
  ~ In name (map fst obj) -> getattr obj name = Raise (AttributeError name).
Proof.
  induction obj as [|[a v] obj IH]; intros Hnot; [reflexivity|].
  cbn [getattr]. cbn [map fst In] in Hnot.
  destruct (String.eqb_spec a name) as [->|_]; [tauto|].
  apply IH. tauto.
Qed.

Lemma getattr_error (obj : namespace) (name : string) (e : error) :
  getattr obj name = Raise e -> e = AttributeError name.
Proof.
  induction obj as [|[a v] obj IH]; cbn [getattr].
  - congruence.
  - destruct (String.eqb a name); [discriminate | exact IH].
Qed.

Lemma getattr_setattr_other (obj : namespace) (name other : string)
    (v : value) :
  other <> name -> getattr (setattr obj name v) other = getattr obj other.
Proof.
  intros Hne. induction obj as [|[a w] obj IH]; cbn [setattr getattr].
  - destruct (String.eqb_spec name other); [congruence | reflexivity].
  - destruct (String.eqb_spec a name) as [->|Ha]; cbn [getattr].
    + destruct (String.eqb_spec name other); [congruence | reflexivity].
    + destruct (String.eqb a other); [reflexivity | exact IH].
Qed.

Lemma init_setattr_raise (e : error) (data : list (string * value)) :
  fold_left init_setattr data (Raise e) = Raise e.
Proof. induction data as [|item data IH]; [reflexivity | exact IH]. Qed.

Lemma init_setattr_ordinary (self : ExperimentRun) (name : string)
    (var : value) :
  ordinary_key name ->
  init_setattr (Ok self) (name, var)
  = Ok (mkRun (iterations self) (setattr (attributes self) name var)).
Proof.
  intros (Hiter & Hdict & Hclass & Hweak).
  unfold init_setattr, setattr_self. cbn [bind].
  destruct (String.eqb_spec name "iterations"); [contradiction|].
  destruct (String.eqb_spec name "__class__"); [contradiction|].
  destruct (String.eqb_spec name "__weakref__"); [contradiction|].
  now destruct (String.eqb_spec name "__dict__").
Qed.

(** a round of the first loop that returns, for a key other than
    ['iterations'] and ['__dict__'], has stored the key *)
Lemma init_setattr_stored (self after : ExperimentRun) (name : string)
    (var : value) :
  name <> "iterations"%string -> name <> "__dict__"%string ->
  init_setattr (Ok self) (name, var) = Ok after ->
  after = mkRun (iterations self) (setattr (attributes self) name var).
Proof.
  intros Hiter Hdict. unfold init_setattr, setattr_self. cbn [bind].
  destruct (String.eqb_spec name "iterations"); [contradiction|].
  destruct (String.eqb_spec name "__class__"); [discriminate|].
  destruct (String.eqb_spec name "__weakref__"); [discriminate|].
  destruct (String.eqb_spec name "__dict__"); [contradiction|].
  intros E. now inversion E.
Qed.

Lemma init_setattr_iterations (self after : ExperimentRun) (var : value) :
  init_setattr (Ok self) ("iterations"%string, var) = Ok after ->
  attributes after = attributes self /\
  exists elements spaces,
    iterate var = Ok elements /\
    mapM SimpleNamespace elements = Ok spaces /\
    iterations after = Some spaces.
Proof.
  unfold init_setattr. cbn [bind]. rewrite String.eqb_refl.
  destruct (iterate var) as [elements|e]; [|discriminate]. cbn [bind].
  destruct (mapM SimpleNamespace elements) as [spaces|e] eqn:Hspaces;
    [|discriminate].
  cbn [bind]. intros E. inversion E. cbn [attributes iterations].
  split; [reflexivity|]. exists elements, spaces.
  split; [reflexivity|]. split; [exact Hspaces | reflexivity].
Qed.

Lemma init_setattr_attributes (self after : ExperimentRun)
    (item : string * value) :
  fst item <> "__dict__"%string ->
  init_setattr (Ok self) item = Ok after ->
  forall name, name <> fst item \/ fst item = "iterations"%string ->
    getattr (attributes after) name = getattr (attributes self) name.
Proof.
  destruct item as [key var]. cbn [fst]. intros Hdict Hitem name Hname.
  destruct (String.eqb_spec key "iterations") as [->|Hkey].
  - apply init_setattr_iterations in Hitem. destruct Hitem as [-> _].
    reflexivity.
  - apply init_setattr_stored in Hitem; [|exact Hkey | exact Hdict].
    subst after. cbn [attributes].
    destruct Hname as [Hname|Hname]; [|contradiction].
    now apply getattr_setattr_other.
Qed.

Lemma init_fold_attributes (data : list (string * value)) :
  forall self after,
    fold_left init_setattr data (Ok self) = Ok after ->
    ~ In "__dict__"%string (map fst data) ->
    forall name, name <> "iterations"%string ->
      (~ In name (map fst data) ->
       getattr (attributes after) name = getattr (attributes self) name) /\
      (forall v, NoDup (map fst data) -> In (name, v) data ->
                 getattr (attributes after) name = Ok v).
Proof.
  induction data as [|item data IH];
    intros self after Hfold Hdict name Hname.
  - cbn in Hfold. inversion Hfold. split; [reflexivity | contradiction].
  - cbn [fold_left] in Hfold. cbn [map In] in Hdict.
    destruct (init_setattr (Ok self) item) as [middle|e] eqn:Hitem;
      [|now rewrite init_setattr_raise in Hfold].
    assert (Hitem_dict : fst item <> "__dict__"%string) by tauto.
    assert (Hrest_dict : ~ In "__dict__"%string (map fst data)) by tauto.
    destruct (IH middle after Hfold Hrest_dict name Hname)
      as [Hkeep Hfind].
    split.
    + intros Hnot. cbn [map In] in Hnot. rewrite Hkeep by tauto.
      eapply init_setattr_attributes;
        [exact Hitem_dict | exact Hitem | left; intros ->; tauto].
    + intros v Hdup [->|Hin]; inversion Hdup as [|? ? Hfresh Hrest]; subst.
      * cbn [fst] in Hfresh, Hitem_dict. rewrite Hkeep by exact Hfresh.
        apply init_setattr_stored in Hitem;
          [|exact Hname | exact Hitem_dict].
        subst middle. cbn [attributes]. apply getattr_setattr.
      * now apply Hfind.
Qed.

Lemma init_fold_ordinary (data : list (string * value)) :
  forall self,
    iterations self = None ->
    getattr (attributes self) "iterations"
    = Raise (AttributeError "iterations") ->
    (forall item, In item data -> ordinary_key (fst item)) ->
    exists after,
      fold_left init_setattr data (Ok self) = Ok after /\
      iterations after = None /\
      getattr (attributes after) "iterations"
      = Raise (AttributeError "iterations").
Proof.
  induction data as [|[key var] data IH]; intros self Hnone Hmiss Hkeys.
  - now exists self.
  - cbn [fold_left].
    assert (Hkey : ordinary_key key) by (apply (Hkeys (key, var)); now left).
    rewrite (init_setattr_ordinary self var Hkey).
    apply IH.
    + exact Hnone.
    + cbn [attributes]. rewrite getattr_setattr_other; [exact Hmiss|].
      intros Heq. destruct Hkey as [Hiter _]. now apply Hiter.
    + intros item Hin. apply Hkeys. now right.
Qed.

(** what the first loop leaves of the key ['iterations'] in a log
    without the key ['__dict__'] *)
Lemma init_fold_iterations (data : list (string * value)) :
  forall self after,
    fold_left init_setattr data (Ok self) = Ok after ->
    ~ In "__dict__"%string (map fst data) ->
    NoDup (map fst data) ->
    (~ In "iterations"%string (map fst data) ->
     iterations after = iterations self) /\
    (forall var, In ("iterations"%string, var) data ->
       exists elements spaces,
         iterate var = Ok elements /\
         mapM SimpleNamespace elements = Ok spaces /\
         iterations after = Some spaces).
Proof.
  induction data as [|[key var] data IH];
    intros self after Hfold Hdict Hdup.
  - cbn in Hfold. inversion Hfold. split; [reflexivity | contradiction].
  - cbn [fold_left] in Hfold. cbn [map In fst] in Hdict.
    destruct (init_setattr (Ok self) (key, var)) as [middle|e] eqn:Hitem;
      [|now rewrite init_setattr_raise in Hfold].
    inversion Hdup as [|? ? Hfresh Hrest]; subst.
    destruct (IH middle after Hfold ltac:(tauto) Hrest) as [Hkeep Hfind].
    split.
    + intros Hnot. cbn [map In fst] in Hnot. rewrite Hkeep by tauto.
      apply init_setattr_stored in Hitem; [|tauto | tauto].
      now subst middle.
    + intros var' [Heq|Hin].
      * inversion Heq; subst. rewrite Hkeep by exact Hfresh.
        apply init_setattr_iterations in Hitem. apply Hitem.
      * now apply Hfind.
Qed.

Section Loading.
Context `{Ast}.

(** X9: a run log whose keys are all ordinary, none of them
    ['iterations'], ['__dict__'], ['__class__'] or ['__weakref__'],
    cannot be loaded: [__init__] raises an attribute error for
    [iterations], whatever those keys hold. *)
Theorem init_without_iterations (data : list (string * value)) :
  (forall item, In item data -> ordinary_key (fst item)) ->
  init data = Raise (AttributeError "iterations").
Proof.
  intros Hkeys.
  destruct (@init_fold_ordinary data (mkRun None []) eq_refl eq_refl Hkeys)
    as (after & Hfold & Hnone & Hmiss).
  unfold init, get_iterations. rewrite Hfold. cbn [bind].
  now rewrite Hnone, Hmiss.
Qed.

(** X10: when the iterations before some iteration decode and that
    iteration has no [params] attribute, [__init__] raises an attribute
    error for [params]. *)
Theorem init_missing_params (data : list (string * value))
    (loaded : ExperimentRun) (before after : list namespace)
    (it : namespace) (done : list namespace) :
  fold_left init_setattr data (Ok (mkRun None [])) = Ok loaded ->
  iterations loaded = Some (before ++ it :: after) ->
  mapM decode_params before = Ok done ->
  ~ In "params"%string (map fst it) ->
  init data = Raise (AttributeError "params").
Proof.
  intros Hfold Hraw Hdone Hnot.
  unfold init, get_iterations. rewrite Hfold. cbn [bind].
  rewrite Hraw. cbn [bind].
  rewrite (@mapM_first_raise _ _ decode_params before it after done
             (AttributeError "params") Hdone); [reflexivity|].
  unfold decode_params. now rewrite (getattr_missing _ _ Hnot).
Qed.

(** X11: loading changes nothing but [params] strings.  For a log with
    distinct keys, none of them ['__dict__'], whose key ['iterations']
    holds [var]: when [__init__] returns, the elements of [var] are
    dictionaries, the loaded run has one iteration for each of them, in
    their order; every attribute other than [params] reads in it as in
    the namespace of the dictionary, and an iteration whose [params] is
    not a string is that namespace.  The attributes that the first loop
    set from the other keys are not touched by the decoding. *)
Theorem init_keeps_other_attributes (data : list (string * value))
    (var : value) (loaded run : ExperimentRun) :
  NoDup (map fst data) ->
  ~ In "__dict__"%string (map fst data) ->
  In ("iterations"%string, var) data ->
  fold_left init_setattr data (Ok (mkRun None [])) = Ok loaded ->
  init data = Ok run ->
  attributes run = attributes loaded /\
  exists elements raw decoded,
    iterate var = Ok elements /\
    mapM SimpleNamespace elements = Ok raw /\
    iterations run = Some decoded /\
    length decoded = length elements /\
    Forall2 (fun old new =>
               (forall name, name <> "params"%string ->
                  getattr new name = getattr old name) /\
               ((forall text, getattr old "params" <> Ok (VStr text)) ->
                new = old))
            raw decoded.
Proof.
  intros Hdup Hdict Hin Hfold Hinit.
  destruct (@init_fold_iterations data (mkRun None []) loaded Hfold
              Hdict Hdup) as [_ Hfind].
  destruct (Hfind var Hin) as (elements & raw & Hiter & Hspaces & Hraw).
  unfold init, get_iterations in Hinit.
  rewrite Hfold in Hinit. cbn [bind] in Hinit.
  rewrite Hraw in Hinit. cbn [bind] in Hinit.
  destruct (mapM decode_params raw) as [decoded|e] eqn:Hmap;
    [|discriminate].
  inversion Hinit. cbn [attributes iterations].
  split; [reflexivity|]. exists elements, raw, decoded.
  split; [exact Hiter|]. split; [exact Hspaces|].
  split; [reflexivity|]. split.
  { rewrite (@mapM_length _ _ _ _ _ Hmap).
    now apply mapM_length with SimpleNamespace. }
  apply mapM_ok_Forall2 in Hmap.
  eapply Forall2_impl; [|exact Hmap].
  intros old new Hdec. apply decode_params_decoded in Hdec.
  unfold decoded_from in Hdec.
  destruct (getattr old "params") as [params|e] eqn:Hp; [|contradiction].
  destruct params;
    try (subst new; split; [reflexivity | reflexivity]).
  destruct Hdec as (v & _ & -> & _). split.
  - intros name Hname. now apply getattr_setattr_other.
  - intros Hnostr. now elim (Hnostr s).
Qed.

(** X12: in a log with distinct keys, none of them ['__dict__'], that
    [__init__] loads, every key other than ['iterations'] is an
    attribute of the loaded run with the value the log gives it. *)
Theorem init_passes_keys_through (data : list (string * value))
    (run : ExperimentRun) (name : string) (v : value) :
  NoDup (map fst data) ->
  ~ In "__dict__"%string (map fst data) ->
  In (name, v) data ->
  name <> "iterations"%string ->
  init data = Ok run ->
  getattr (attributes run) name = Ok v.
Proof.
  intros Hdup Hdict Hin Hname Hinit. unfold init in Hinit.
  destruct (fold_left init_setattr data (Ok (mkRun None [])))
    as [loaded|e] eqn:Hfold; [|discriminate].
  cbn [bind] in Hinit.
  destruct (get_iterations loaded) as [raw|]; [|discriminate].
  cbn [bind] in Hinit.
  destruct (mapM decode_params raw); [|discriminate].
  inversion Hinit. cbn [attributes].
  destruct (@init_fold_attributes data (mkRun None []) loaded Hfold
              Hdict name Hname) as [_ Hfind].
  now apply Hfind.
Qed.

End Loading.
End RunAttributes.

(* ================================================================== *)
(** ** Further properties of the axes and series *)

Section AxisErrors.
Import Runs.
Context `{JaxConfig}.

Lemma shots_of_error (i : namespace) (e : error) :
  shots_of i = Raise e ->
  e = AttributeError "samples" \/
  e = AttributeError "shots_per_hamiltonians" \/ e = TypeError.
Proof.
  unfold shots_of.
  destruct (getattr i "samples") as [s|e1] eqn:Hs; cbn [bind].
  - destruct (getattr i "shots_per_hamiltonians") as [t|e2] eqn:Ht;
      cbn [bind].
    + unfold py_mul. destruct s, t; try discriminate;
        intros E; inversion E; auto.
    + intros E. inversion E. subst. apply getattr_error in Ht. auto.
  - intros E. inversion E. subst. apply getattr_error in Hs. auto.
Qed.

Lemma get_iterations_error (self : ExperimentRun) (e : error) :
  get_iterations self = Raise e ->
  e = AttributeError "iterations" \/ e = TypeError.
Proof.
  unfold get_iterations.
  destruct (iterations self) as [spaces|]; [discriminate|].
  destruct (getattr (attributes self) "iterations") as [raw|e'].
  - destruct raw; cbn; try discriminate; intros E; inversion E; auto.
  - intros E. inversion E. auto.
Qed.

(** X13: [get_x_axis] raises the invalid-axis error exactly when the
    axis type is neither ['iterations'] nor ['shots'], and the error
    then names the axis type that was asked for; it does so even on an
    instance that has no iterations. *)
Theorem invalid_axis_exactly (self : ExperimentRun) (axis_type : string) :
  (axis_type <> "iterations"%string /\ axis_type <> "shots"%string ->
   get_x_axis self axis_type = Raise (InvalidAxis axis_type)) /\
  (forall named, get_x_axis self axis_type = Raise (InvalidAxis named) ->
     named = axis_type /\
     axis_type <> "iterations"%string /\ axis_type <> "shots"%string).
Proof.
  unfold get_x_axis.
  destruct (String.eqb_spec axis_type "iterations") as [->|Hi].
  - split; [tauto|]. intros named.
    destruct (get_iterations self) as [spaces|e] eqn:Hget; cbn [bind];
      [discriminate|].
    intros E. inversion E. subst e.
    apply get_iterations_error in Hget. destruct Hget; discriminate.
  - destruct (String.eqb_spec axis_type "shots") as [->|Hs].
    + split; [tauto|]. intros named.
      destruct (get_iterations self) as [spaces|e] eqn:Hget; cbn [bind].
      2:{ intros E. inversion E. subst e.
          apply get_iterations_error in Hget.
          destruct Hget; discriminate. }
      destruct (mapM shots_of spaces) as [products|e] eqn:Hmap; cbn [bind].
      * unfold np_array.
        destruct (forallb _ products); cbn [bind]; discriminate.
      * intros E. inversion E. subst e.
        apply mapM_raise_inv in Hmap. destruct Hmap as (i & _ & Hi').
        apply shots_of_error in Hi'.
        destruct Hi' as [Hi'|[Hi'|Hi']]; discriminate.
    + split; [reflexivity|]. intros named E. inversion E. subst named.
      repeat split; assumption.
Qed.

End AxisErrors.

Section AxisValues.
Import Runs.
Context `{JaxConfig}.
Hypothesis bits_positive : (0 < int_bits)%Z.

Lemma wrap_congruent (z : Z) :
  (int_min <= wrap z <= int_max)%Z /\
  exists q : Z, wrap z = (z + q * 2 ^ int_bits)%Z.
Proof.
  destruct (int_range bits_positive) as (_ & _ & Hpow).
  assert (Hbig : (0 < 2 ^ int_bits)%Z) by (apply Z.pow_pos_nonneg; lia).
  unfold wrap. split.
  - pose proof (Z.mod_pos_bound (z - int_min) (2 ^ int_bits) Hbig). lia.
  - exists (- ((z - int_min) / 2 ^ int_bits))%Z.
    rewrite Z.mod_eq by lia. lia.
Qed.

Lemma cumsum_from_congruent (xs : list Z) :
  forall acc i,
    i < length xs ->
    (int_min <= nth i (cumsum_from acc xs) 0 <= int_max)%Z /\
    exists q : Z,
      nth i (cumsum_from acc xs) 0%Z
      = (acc + total (firstn (S i) xs) + q * 2 ^ int_bits)%Z.
Proof.
  induction xs as [|x xs IH]; intros acc i Hi; [cbn in Hi; lia|].
  cbn [cumsum_from].
  destruct (wrap_congruent (acc + x)) as (Hrange & q & Hq).
  destruct i as [|i].
  - cbn [nth firstn total fold_right]. split; [exact Hrange|].
    exists q. lia.
  - cbn [nth]. cbn [length] in Hi.
    destruct (IH (wrap (acc + x)) i) as (Hr & q' & Hq'); [lia|].
    split; [exact Hr|]. exists (q + q')%Z.
    rewrite Hq', Hq.
    change (firstn (S (S i)) (x :: xs)) with (x :: firstn (S i) xs).
    cbn [total fold_right]. fold (total (firstn (S i) xs)). lia.
Qed.

Lemma cumsum_from_length (xs : list Z) :
  forall acc, length (cumsum_from acc xs) = length xs.
Proof.
  induction xs as [|x xs IH]; intros acc; [reflexivity|].
  cbn [cumsum_from length]. now rewrite IH.
Qed.

Lemma shots_of_integer (spaces : list namespace) (products : list Z) :
  integer_shots spaces products -> mapM shots_of spaces = Ok products.
Proof.
  induction 1 as [|i p spaces products Hi _ IH]; [reflexivity|].
  destruct Hi as (s & t & Hs & Ht & ->).
  cbn [mapM]. unfold shots_of at 1. rewrite Hs, Ht. cbn [bind py_mul].
  now rewrite IH.
Qed.

(** X14: the cumulative-shots axis for integers of any sign and size.
    When every product [samples * shots_per_hamiltonians] fits the
    integer type of the array, the axis has one value per iteration, each
    within the range of that type and equal to the true running sum up
    to a multiple of [2 ^ int_bits].  When one product does not fit,
    [get_x_axis] raises an overflow error. *)
Theorem shots_axis_modulo (self : ExperimentRun)
    (spaces : list namespace) (products : list Z) :
  iterations self = Some spaces ->
  integer_shots spaces products ->
  (Forall (fun p => int_min <= p <= int_max)%Z products ->
   exists axis,
     get_x_axis self "shots" = Ok axis /\
     length axis = length spaces /\
     forall i, i < length axis ->
       (int_min <= nth i axis 0 <= int_max)%Z /\
       exists q : Z,
         nth i axis 0%Z
         = (total (firstn (S i) products) + q * 2 ^ int_bits)%Z) /\
  (~ Forall (fun p => int_min <= p <= int_max)%Z products ->
   get_x_axis self "shots" = Raise OverflowError).
Proof.
  intros Hit Hshots.
  pose proof (shots_of_integer Hshots) as Hmap.
  assert (Hlen : length products = length spaces)
    by exact (@mapM_length _ _ _ _ _ Hmap).
  assert (Hcall : get_x_axis self "shots"
                  = (array <- np_array products ;; Ok (cumsum array))).
  { unfold get_x_axis, get_iterations. cbn [String.eqb Ascii.eqb Bool.eqb].
    rewrite Hit. cbn [bind]. now rewrite Hmap. }
  rewrite Hcall. unfold np_array.
  destruct (forallb (fun x => (int_min <=? x)%Z && (x <=? int_max)%Z)
                    products) eqn:Hfit.
  - split; [|intros Hnot; elim Hnot].
    + intros _. exists (cumsum products). cbn [bind].
      unfold cumsum. rewrite cumsum_from_length.
      split; [reflexivity|]. split; [exact Hlen|].
      intros i Hi.
      destruct (@cumsum_from_congruent products 0%Z i Hi) as (Hr & q & Hq).
      split; [exact Hr|]. exists q. rewrite Hq. lia.
    + rewrite forallb_forall in Hfit. apply Forall_forall.
      intros p Hp. specialize (Hfit p Hp).
      apply andb_prop in Hfit. destruct Hfit as [Hlo Hhi].
      apply Z.leb_le in Hlo. apply Z.leb_le in Hhi. lia.
  - split; [|reflexivity].
    intros Hall. rewrite Forall_forall in Hall.
    assert (Htrue : forallb (fun x => (int_min <=? x)%Z && (x <=? int_max)%Z)
                            products = true).
    { apply forallb_forall. intros p Hp. specialize (Hall p Hp).
      apply andb_true_intro. split; apply Z.leb_le; lia. }
    congruence.
Qed.

End AxisValues.

Section LoadedRun.
Import Runs.
Context `{Ast} `{JaxConfig} {A : Type} `{Numpy A}.

Lemma init_has_iterations (data : list (string * value))
    (run : ExperimentRun) :
  init data = Ok run ->
  exists loaded raw decoded,
    fold_left init_setattr data (Ok (mkRun None [])) = Ok loaded /\
    get_iterations loaded = Ok raw /\
    mapM decode_params raw = Ok decoded /\
    run = mkRun (Some decoded) (attributes loaded).
Proof.
  unfold init.
  destruct (fold_left init_setattr data (Ok (mkRun None [])))
    as [loaded|e] eqn:Hfold; [|discriminate].
  cbn [bind].
  destruct (get_iterations loaded) as [raw|e] eqn:Hraw; [|discriminate].
  cbn [bind].
  destruct (mapM decode_params raw) as [decoded|e] eqn:Hmap;
    [|discriminate].
  cbn [bind]. intros E. inversion E. now exists loaded, raw, decoded.
Qed.

Lemma get_iterations_set (self : ExperimentRun) (spaces : list namespace) :
  iterations self = Some spaces -> get_iterations self = Ok spaces.
Proof. intros Hset. unfold get_iterations. now rewrite Hset. Qed.

(** X15: the iteration axis of a loaded run.  For a log with distinct
    keys, none of them ['__dict__'], whose key ['iterations'] holds
    [var], and which [__init__] loads: when no key is ['get_x_axis'],
    the call [get_x_axis('iterations')] returns, with one value per
    element of [var], the value at position [i] being [i]; when a key
    is ['get_x_axis'], its value hides the method and the call raises a
    type error. *)
Theorem loaded_iteration_axis (data : list (string * value))
    (var : value) (run : ExperimentRun) :
  NoDup (map fst data) ->
  ~ In "__dict__"%string (map fst data) ->
  In ("iterations"%string, var) data ->
  init data = Ok run ->
  (~ In "get_x_axis"%string (map fst data) ->
   exists elements axis,
     iterate var = Ok elements /\
     call_method run "get_x_axis" (get_x_axis run "iterations") = Ok axis /\
     length axis = length elements /\
     forall i, i < length elements -> nth i axis 0%Z = Z.of_nat i) /\
  (In "get_x_axis"%string (map fst data) ->
   call_method run "get_x_axis" (get_x_axis run "iterations")
   = Raise TypeError).
Proof.
  intros Hdup Hdict Hin Hinit.
  destruct (init_has_iterations _ Hinit)
    as (loaded & raw & decoded & Hfold & Hraw & Hmap & ->).
  destruct (@init_fold_attributes data (mkRun None []) loaded Hfold
              Hdict "get_x_axis"%string ltac:(discriminate))
    as [Hkeep Hfind].
  unfold call_method. cbn [attributes]. split.
  - intros Hnot. rewrite (Hkeep Hnot). cbn [attributes getattr].
    destruct (@init_fold_iterations data (mkRun None []) loaded Hfold
                Hdict Hdup) as [_ Hfound].
    destruct (Hfound var Hin) as (elements & spaces & Hiter & Hns & Hset).
    rewrite (get_iterations_set _ Hset) in Hraw.
    injection Hraw as <-.
    pose proof (@mapM_length _ _ _ _ _ Hmap) as Hdecoded.
    pose proof (@mapM_length _ _ _ _ _ Hns) as Hspaces.
    exists elements, (arange (length decoded)).
    split; [exact Hiter|]. split; [reflexivity|].
    unfold arange. rewrite length_map, length_seq.
    split; [congruence|].
    intros i Hi. rewrite nth_map_seq by congruence. reflexivity.
  - intros Hkey. apply in_map_iff in Hkey.
    destruct Hkey as ([name v] & Hname & Hitem). cbn [fst] in Hname.
    subst name. now rewrite (Hfind v Hdup Hitem).
Qed.

Lemma decode_params_reads (old new : namespace) :
  decode_params old = Ok new ->
  (forall name, name <> "params"%string ->
     getattr new name = getattr old name) /\
  exists p, getattr new "params" = Ok p /\ params_read old p.
Proof.
  intros Hdec. apply decode_params_decoded in Hdec.
  unfold decoded_from in Hdec. unfold params_read.
  destruct (getattr old "params") as [params|e] eqn:Hp; [|contradiction].
  destruct params;
    try (subst new; split; [reflexivity | eexists; split; [exact Hp|];
                            reflexivity]).
  destruct Hdec as (v & Hv & -> & Hget). split.
  - intros name Hname. now apply getattr_setattr_other.
  - exists v. now split.
Qed.

Lemma decoded_costs (raw decoded : list namespace) :
  mapM decode_params raw = Ok decoded ->
  mapM (fun i => getattr i "cost") decoded
  = mapM (fun i => getattr i "cost") raw.
Proof.
  intros Hmap. apply mapM_ok_Forall2 in Hmap.
  induction Hmap as [|old new raw decoded Hdec _ IH]; [reflexivity|].
  cbn [mapM]. rewrite IH.
  destruct (decode_params_reads _ Hdec) as [Hkeep _].
  now rewrite Hkeep by discriminate.
Qed.

Lemma decoded_params (raw decoded : list namespace) :
  mapM decode_params raw = Ok decoded ->
  exists ps,
    mapM (fun i => getattr i "params") decoded = Ok ps /\
    Forall2 params_read raw ps.
Proof.
  intros Hmap. apply mapM_ok_Forall2 in Hmap.
  induction Hmap as [|old new raw decoded Hdec _ IH].
  - exists []. split; [reflexivity | constructor].
  - destruct IH as (ps & Hps & Hall).
    destruct (decode_params_reads _ Hdec) as (_ & p & Hp & Hread).
    exists (p :: ps). cbn [mapM]. rewrite Hp, Hps. cbn [bind].
    split; [reflexivity | now constructor].
Qed.

(** X16: the series of a loaded run.  [get_costs] hands [np.array] the
    [cost] values of the log, in the order of the iterations, and raises
    as it would on the log when an iteration has no [cost].
    [get_params] finds a [params] value in every iteration and hands
    [np.array], in order, the literal of each [params] string and every
    other [params] value as it is. *)
Theorem loaded_series (data : list (string * value))
    (loaded run : ExperimentRun) (raw : list namespace) :
  fold_left init_setattr data (Ok (mkRun None [])) = Ok loaded ->
  iterations loaded = Some raw ->
  init data = Ok run ->
  get_costs run
  = (costs <- mapM (fun i => getattr i "cost") raw ;;
     np_array_values costs) /\
  exists ps,
    Forall2 params_read raw ps /\
    get_params run = np_array_values ps.
Proof.
  intros Hfold Hraw Hinit.
  destruct (init_has_iterations _ Hinit)
    as (loaded' & raw' & decoded & Hfold' & Hraw' & Hmap & ->).
  assert (loaded' = loaded) by congruence. subst loaded'.
  rewrite (get_iterations_set _ Hraw) in Hraw'.
  injection Hraw' as <-.
  unfold get_costs, get_params, get_iterations.
  cbn [iterations bind]. split.
  - now rewrite (decoded_costs _ Hmap).
  - destruct (decoded_params _ Hmap) as (ps & Hps & Hall).
    exists ps. split; [exact Hall|]. now rewrite Hps.
Qed.

End LoadedRun.

(* ================================================================== *)
(** ** The further properties on sample inputs *)

Section FurtherExamples.
Import FeatureSelection Runs Instances Samples.
#[local] Existing Instance signed_square_correlation.
#[local] Existing Instance keep_terms.
#[local] Existing Instance keep_all_terms.

Lemma quadratic_coefficient_is_quarter_entry_witness :
  is_square 2 sample_objective /\
  In (entry (mdiv sample_objective four) 0 1, Tensor (PauliZ 0) (PauliZ 1))
     (weighted_terms (qubo_unsimplified sample_objective)) /\
  entry (mdiv sample_objective four) 0 1
  = div (entry sample_objective 0 1) four.
Proof.
  assert (Hin : In (entry (mdiv sample_objective four) 0 1,
                    Tensor (PauliZ 0) (PauliZ 1))
                   (weighted_terms (qubo_unsimplified sample_objective))).
  { right. left. reflexivity. }
  split; [exact sample_objective_square|]. split; [exact Hin|].
  exact (proj1 (@quadratic_coefficient_is_quarter_entry Qc Qc_scalar 2
                  sample_objective 0 1 _ sample_objective_square Hin)).
Defined.

Lemma wide_features_well_formed (y : vector fq) :
  length y = 3 -> well_formed_data wide_features y.
Proof. intros Hy. repeat split; cbn; try lia. repeat constructor. Qed.

Lemma wide_features_refused : ~ accepted_shape wide_features.
Proof. intros [Hone|Hsquare]; [discriminate Hone | discriminate Hsquare]. Qed.

Lemma objective_matrix_accepted_witness :
  (well_formed_data square_features sample_response /\
   accepted_shape square_features /\
   exists M,
     objective_matrix square_features sample_response quarter = Ok M /\
     length M = 3 /\
     qubo_hamiltonian M = Ok (simplify (qubo_unsimplified M))) /\
  (well_formed_data wide_features sample_response /\
   ~ accepted_shape wide_features /\
   objective_matrix wide_features sample_response quarter
   = Raise ValueError).
Proof.
  pose proof (square_features_well_formed sample_response eq_refl) as Hwf.
  pose proof (wide_features_well_formed sample_response eq_refl) as Hwide.
  split.
  - split; [exact Hwf|]. split; [exact square_features_accepted|].
    destruct (proj1 (@objective_matrix_accepted fq _ _ keep_all_terms
                       square_features sample_response quarter Hwf)
                    square_features_accepted)
      as (M & HM & Hrows & _ & Hqubo).
    exists M. split; [exact HM|]. split; [exact Hrows | exact Hqubo].
  - split; [exact Hwide|]. split; [exact wide_features_refused|].
    exact (proj2 (@objective_matrix_accepted fq _ _ keep_all_terms
                    wide_features sample_response quarter Hwide)
                 wide_features_refused).
Defined.

Lemma sample_correlation_symmetric (a b : nat) :
  a < ncols square_features -> b < ncols square_features ->
  pearson (column square_features a) (column square_features b)
  = pearson (column square_features b) (column square_features a).
Proof.
  cbn [ncols square_features length]. intros Ha Hb.
  destruct a as [|[|[|a]]]; [| | |lia];
    (destruct b as [|[|[|b]]]; [| | |lia]);
    vm_compute; apply f_equal; apply Qc_is_canon; reflexivity.
Qed.

Lemma sample_objective_returned :
  exists M, objective_matrix square_features sample_response quarter = Ok M.
Proof.
  eexists.
  apply (objective_matrix_table quarter
           (square_features_well_formed sample_response eq_refl)
           square_features_accepted).
Qed.

Lemma objective_matrix_symmetric_witness :
  well_formed_data square_features sample_response /\
  0 < ncols square_features /\ 1 < ncols square_features /\
  exists M,
    objective_matrix square_features sample_response quarter = Ok M /\
    entry M 0 1 = entry M 1 0.
Proof.
  pose proof (square_features_well_formed sample_response eq_refl) as Hwf.
  assert (Hzero : 0 < ncols square_features) by (cbn; lia).
  assert (Hone : 1 < ncols square_features) by (cbn; lia).
  split; [exact Hwf|]. split; [exact Hzero|]. split; [exact Hone|].
  destruct sample_objective_returned as [M HM].
  exists M. split; [exact HM|].
  exact (@objective_matrix_symmetric fq _ _
           square_features sample_response quarter M 0 1
           Hwf HM sample_correlation_symmetric Hzero Hone).
Defined.

Lemma objective_matrix_entries_witness :
  well_formed_data square_features sample_response /\
  corrcoef square_features sample_response
  = Ok (correlations square_features sample_response) /\
  finite quarter /\
  exists M,
    objective_matrix square_features sample_response quarter = Ok M /\
    entry M 0 1
    = mul (fabs (entry (correlations square_features sample_response)
                       0 1))
          (sub one quarter).
Proof.
  pose proof (square_features_well_formed sample_response eq_refl) as Hwf.
  pose proof (corrcoef_accepted Hwf square_features_accepted) as Hc.
  assert (Hfin : finite quarter) by discriminate.
  split; [exact Hwf|]. split; [exact Hc|]. split; [exact Hfin|].
  destruct sample_objective_returned as [M HM].
  exists M. split; [exact HM|].
  exact (proj1 (proj2 (proj2
    (@objective_matrix_entries fq _ _ fq_float_like _
       square_features sample_response quarter _ M 0 1
       Hwf Hc HM ltac:(cbn; lia) ltac:(cbn; lia))
    ltac:(discriminate))) Hfin).
Defined.

Lemma state_circuit_layout_witness :
  2 * 1 <= length five_params /\
  strict_ansatz (skipn (2 * 1) five_params) "z"%string "z"%string 2
  = Ok five_params_problem /\
  snd (@feature_selection_ansatz Qc Qc_scalar strict_ansatz 2 1 5)
      five_params
  = Ok [Gate (PauliX 0); Hadamard 0; Gate (PauliX 1); Hadamard 1;
        ApproxTimeEvolution five_params_problem (qc 1) 5;
        CommutingEvolution (x_hamiltonian 2) (qc 2)].
Proof.
  assert (Hlong : 2 * 1 <= length five_params) by (cbn; lia).
  assert (Hok : strict_ansatz (skipn (2 * 1) five_params)
                  "z"%string "z"%string 2
                = Ok five_params_problem) by reflexivity.
  split; [exact Hlong|]. split; [exact Hok|].
  exact (@state_circuit_layout Qc Qc_scalar strict_ansatz 2 1 5
           five_params five_params_problem Hlong Hok).
Defined.

Lemma init_without_iterations_witness :
  (forall item, In item log_without_iterations ->
     ordinary_key (fst item)) /\
  @init read_literal log_without_iterations
  = Raise (AttributeError "iterations").
Proof.
  assert (Hkeys : forall item, In item log_without_iterations ->
                    ordinary_key (fst item)).
  { intros item [<-|[<-|[]]]; repeat split; discriminate. }
  split; [exact Hkeys|].
  exact (@init_without_iterations read_literal log_without_iterations Hkeys).
Defined.

Lemma init_missing_params_witness :
  fold_left init_setattr log_without_params (Ok (mkRun None []))
  = Ok (mkRun (Some ([] ++ [("cost"%string, VFloat (1 # 2))] :: [])) []) /\
  ~ In "params"%string (map fst [("cost"%string, VFloat (1 # 2))]) /\
  @init read_literal log_without_params = Raise (AttributeError "params").
Proof.
  assert (Hnot : ~ In "params"%string
                     (map fst [("cost"%string, VFloat (1 # 2))])).
  { intros [E|[]]. discriminate E. }
  split; [reflexivity|]. split; [exact Hnot|].
  exact (@init_missing_params read_literal log_without_params
           (mkRun (Some ([] ++ [("cost"%string, VFloat (1 # 2))] :: [])) [])
           [] [] [("cost"%string, VFloat (1 # 2))] []
           eq_refl eq_refl eq_refl Hnot).
Defined.

Lemma sample_log_loads :
  fold_left init_setattr (log_with_params (VStr "[1.0, 2.0]"))
            (Ok (mkRun None []))
  = Ok (loaded_log (VStr "[1.0, 2.0]")) /\
  @init read_literal (log_with_params (VStr "[1.0, 2.0]"))
  = Ok (loaded_log decoded_pair).
Proof. split; vm_compute; reflexivity. Qed.

Lemma sample_log_keys : NoDup (map fst (log_with_params (VStr "[1.0, 2.0]"))).
Proof.
  cbn. constructor; [intros [E|[]]; discriminate E|].
  constructor; [intros [] | constructor].
Qed.

Lemma sample_log_plain :
  ~ In "__dict__"%string (map fst (log_with_params (VStr "[1.0, 2.0]"))).
Proof. intros [E|[E|[]]]; discriminate E. Qed.

Lemma sample_log_iterations :
  In ("iterations"%string, VList [VDict (raw_iteration (VStr "[1.0, 2.0]"))])
     (log_with_params (VStr "[1.0, 2.0]")).
Proof. right. left. reflexivity. Qed.

Lemma init_keeps_other_attributes_witness :
  NoDup (map fst (log_with_params (VStr "[1.0, 2.0]"))) /\
  ~ In "__dict__"%string (map fst (log_with_params (VStr "[1.0, 2.0]"))) /\
  In ("iterations"%string, VList [VDict (raw_iteration (VStr "[1.0, 2.0]"))])
     (log_with_params (VStr "[1.0, 2.0]")) /\
  fold_left init_setattr (log_with_params (VStr "[1.0, 2.0]"))
            (Ok (mkRun None []))
  = Ok (loaded_log (VStr "[1.0, 2.0]")) /\
  @init read_literal (log_with_params (VStr "[1.0, 2.0]"))
  = Ok (loaded_log decoded_pair) /\
  attributes (loaded_log decoded_pair)
  = attributes (loaded_log (VStr "[1.0, 2.0]")).
Proof.
  split; [exact sample_log_keys|]. split; [exact sample_log_plain|].
  split; [exact sample_log_iterations|].
  split; [exact (proj1 sample_log_loads)|].
  split; [exact (proj2 sample_log_loads)|].
  exact (proj1
    (@init_keeps_other_attributes read_literal
       (log_with_params (VStr "[1.0, 2.0]"))
       (VList [VDict (raw_iteration (VStr "[1.0, 2.0]"))])
       (loaded_log (VStr "[1.0, 2.0]")) (loaded_log decoded_pair)
       sample_log_keys sample_log_plain sample_log_iterations
       (proj1 sample_log_loads) (proj2 sample_log_loads))).
Defined.

Lemma init_passes_keys_through_witness :
  NoDup (map fst (log_with_params (VStr "[1.0, 2.0]"))) /\
  ~ In "__dict__"%string (map fst (log_with_params (VStr "[1.0, 2.0]"))) /\
  In ("run_number"%string, VInt 3) (log_with_params (VStr "[1.0, 2.0]")) /\
  getattr (attributes (loaded_log decoded_pair)) "run_number" = Ok (VInt 3).
Proof.
  assert (Hin : In ("run_number"%string, VInt 3)
                   (log_with_params (VStr "[1.0, 2.0]")))
    by (left; reflexivity).
  assert (Hname : "run_number"%string <> "iterations"%string)
    by discriminate.
  split; [exact sample_log_keys|]. split; [exact sample_log_plain|].
  split; [exact Hin|].
  exact (@init_passes_keys_through read_literal
           (log_with_params (VStr "[1.0, 2.0]")) (loaded_log decoded_pair)
           "run_number" (VInt 3) sample_log_keys sample_log_plain Hin Hname
           (proj2 sample_log_loads)).
Defined.

Lemma run_with_integer (samples shots : Z) :
  integer_shots [iteration_with samples shots; iteration_with samples shots]
                [(samples * shots)%Z; (samples * shots)%Z].
Proof. repeat constructor; exists samples, shots; repeat split. Qed.

Lemma shots_axis_modulo_witness :
  (0 < @int_bits jax_default)%Z /\
  integer_shots [iteration_with 1024%Z 1048576%Z;
                 iteration_with 1024%Z 1048576%Z]
                [1073741824%Z; 1073741824%Z] /\
  Forall (fun p => @int_min jax_default <= p <= @int_max jax_default)%Z
         [1073741824%Z; 1073741824%Z] /\
  exists axis,
    @get_x_axis jax_default (run_with 1024%Z 1048576%Z) "shots" = Ok axis /\
    length axis = 2.
Proof.
  assert (Hbits : (0 < @int_bits jax_default)%Z) by reflexivity.
  assert (Hfit : Forall (fun p => @int_min jax_default <= p
                                  <= @int_max jax_default)%Z
                        [1073741824%Z; 1073741824%Z]).
  { repeat constructor; vm_compute; discriminate. }
  split; [exact Hbits|].
  split; [exact (run_with_integer 1024%Z 1048576%Z)|].
  split; [exact Hfit|].
  destruct (proj1
    (@shots_axis_modulo jax_default Hbits (run_with 1024%Z 1048576%Z)
       [iteration_with 1024%Z 1048576%Z; iteration_with 1024%Z 1048576%Z]
       [1073741824%Z; 1073741824%Z] eq_refl
       (run_with_integer 1024%Z 1048576%Z)) Hfit)
    as (axis & Hcall & Hlen & _).
  exists axis. split; [exact Hcall | exact Hlen].
Defined.

Lemma loaded_iteration_axis_witness :
  NoDup (map fst (log_with_params (VStr "[1.0, 2.0]"))) /\
  ~ In "__dict__"%string (map fst (log_with_params (VStr "[1.0, 2.0]"))) /\
  ~ In "get_x_axis"%string
       (map fst (log_with_params (VStr "[1.0, 2.0]"))) /\
  @init read_literal (log_with_params (VStr "[1.0, 2.0]"))
  = Ok (loaded_log decoded_pair) /\
  exists axis,
    call_method (loaded_log decoded_pair) "get_x_axis"
      (@get_x_axis jax_default (loaded_log decoded_pair) "iterations")
    = Ok axis /\
    length axis = 1.
Proof.
  assert (Hmethod : ~ In "get_x_axis"%string
                       (map fst (log_with_params (VStr "[1.0, 2.0]")))).
  { intros [E|[E|[]]]; discriminate E. }
  split; [exact sample_log_keys|]. split; [exact sample_log_plain|].
  split; [exact Hmethod|].
  split; [exact (proj2 sample_log_loads)|].
  destruct (proj1
    (@loaded_iteration_axis read_literal jax_default
       (log_with_params (VStr "[1.0, 2.0]"))
       (VList [VDict (raw_iteration (VStr "[1.0, 2.0]"))])
       (loaded_log decoded_pair)
       sample_log_keys sample_log_plain sample_log_iterations
       (proj2 sample_log_loads)) Hmethod)
    as (elements & axis & Hiter & Hcall & Hlen & _).
  exists axis. split; [exact Hcall|].
  rewrite Hlen. injection Hiter as <-. reflexivity.
Defined.

Lemma loaded_series_witness :
  @init read_literal (log_with_params (VStr "[1.0, 2.0]"))
  = Ok (loaded_log decoded_pair) /\
  @get_costs (list value) plain_array (loaded_log decoded_pair)
  = Ok [VFloat (1 # 2)].
Proof.
  split; [exact (proj2 sample_log_loads)|].
  rewrite (proj1
    (@loaded_series read_literal (list value) plain_array
       (log_with_params (VStr "[1.0, 2.0]"))
       (loaded_log (VStr "[1.0, 2.0]")) (loaded_log decoded_pair)
       [raw_iteration (VStr "[1.0, 2.0]")]
       (proj1 sample_log_loads) eq_refl (proj2 sample_log_loads))).
  reflexivity.
Defined.

End FurtherExamples.
